(** * Verification of the astra-db-go option merge, command envelope,
    response classification and pagination cursor.

    Shallow embedding of [options/api_options.go], [command.go],
    [errors.go] and [cursor/cursor.go]. *)

From Stdlib Require Import ZArith Ascii.

Set Warnings "-register-all".

From stdpp Require Import base gmap strings list pretty.

Open Scope Z_scope.

(* ================================================================== *)
(** ** options/api_options.go *)
(* ================================================================== *)

Module Options.

(** Go pointers to immutable values ([*string], [*time.Duration]) are
    modelled by their pointee, [None] being [nil]. *)

(** [time.Duration]: nanoseconds. *)
Definition Duration := Z.
Definition Second : Duration := 1000000000.

(** [*http.Client]: the client built by [DefaultAPIOptions] or a
    caller-provided client, identified by a handle. *)
Inductive HTTPClient :=
| DefaultHTTPClient
| UserHTTPClient (id : nat).

(** [SerdesOptions] is an empty struct; a [*SerdesOptions] is
    identified by a handle. *)
Definition SerdesOptions := nat.

(** A [WarningHandler] closure, identified by a handle. *)
Definition WarningHandler := nat.

Record TimeoutOptions := {
  Request : option Duration;
  Connection : option Duration;
  BulkOperation : option Duration
}.

Record APIOptions := {
  Token : option string;
  Keyspace : option string;
  APIVersion : option string;
  HTTPClient_ : option HTTPClient;
  Headers : option (gmap string string);   (* nil map = None *)
  Timeout : option TimeoutOptions;
  Serdes : option SerdesOptions;
  WarningHandler_ : option WarningHandler
}.

(** [DefaultAPIOptions] *)
Definition DefaultAPIOptions : APIOptions := {|
  Token := None;
  Keyspace := Some "default_keyspace"%string;
  APIVersion := Some "v1"%string;
  HTTPClient_ := Some DefaultHTTPClient;
  Headers := Some ∅;
  Timeout := Some {| Request := Some (30 * Second);
                     Connection := None; BulkOperation := None |};
  Serdes := None;
  WarningHandler_ := None
|}.

Definition override {A} (layer cur : option A) : option A :=
  match layer with Some v => Some v | None => cur end.

(** The header loop [for k, v := range layer.Headers { result.Headers[k] = v }]:
    every key of the layer is written over the result, i.e. a
    left-biased union with the layer on the left. *)
Definition merge_headers (layer cur : option (gmap string string))
    : option (gmap string string) :=
  match layer with
  | None => cur
  | Some lh =>
      let rh := match cur with Some m => m | None => ∅ end in
      Some (lh ∪ rh)
  end.

Definition empty_timeout : TimeoutOptions :=
  {| Request := None; Connection := None; BulkOperation := None |}.

Definition merge_timeout (layer cur : option TimeoutOptions)
    : option TimeoutOptions :=
  match layer with
  | None => cur
  | Some lt =>
      let rt := match cur with Some t => t | None => empty_timeout end in
      Some {| Request := override (Request lt) (Request rt);
              Connection := override (Connection lt) (Connection rt);
              BulkOperation := override (BulkOperation lt) (BulkOperation rt) |}
  end.

(** One iteration of the loop of [Merge] over a non-nil layer. *)
Definition merge_layer (result layer : APIOptions) : APIOptions := {|
  Token := override (Token layer) (Token result);
  Keyspace := override (Keyspace layer) (Keyspace result);
  APIVersion := override (APIVersion layer) (APIVersion result);
  HTTPClient_ := override (HTTPClient_ layer) (HTTPClient_ result);
  Headers := merge_headers (Headers layer) (Headers result);
  Timeout := merge_timeout (Timeout layer) (Timeout result);
  Serdes := override (Serdes layer) (Serdes result);
  WarningHandler_ := override (WarningHandler_ layer) (WarningHandler_ result)
|}.

(** [Merge(layers ...*APIOptions)]: nil layers ([None]) are skipped. *)
Definition Merge_from (result : APIOptions) (layers : list (option APIOptions))
    : APIOptions :=
  fold_left (fun r l => match l with
                        | None => r
                        | Some layer => merge_layer r layer
                        end) layers result.

Definition Merge (layers : list (option APIOptions)) : APIOptions :=
  Merge_from DefaultAPIOptions layers.

(** The value of the last non-nil layer that defines a field. *)
Definition last_defined {A} (f : APIOptions -> option A)
    (layers : list (option APIOptions)) : option A :=
  fold_left (fun acc l => match l with
                          | Some layer => override (f layer) acc
                          | None => acc
                          end) layers None.

Definition with_default {A} (v : option A) (d : option A) : option A :=
  override v d.

End Options.


(* ================================================================== *)
(** ** JSON values and the parts of [encoding/json] the code relies on *)
(* ================================================================== *)

Module Json.

(** A JSON document; numbers are kept as their integer value and
    object members in document order (duplicates allowed). *)
Inductive json :=
| JNull
| JBool (b : bool)
| JNumber (n : Z)
| JString (s : string)
| JArray (xs : list json)
| JObject (fields : list (string * json)).

Definition ascii_lower (c : ascii) : ascii :=
  let n := Ascii.nat_of_ascii c in
  if (65 <=? n)%nat && (n <=? 90)%nat then Ascii.ascii_of_nat (n + 32) else c.

Fixpoint lower (s : string) : string :=
  match s with
  | EmptyString => EmptyString
  | String c s' => String (ascii_lower c) (lower s')
  end.

(** [encoding/json] matches object keys against struct field names,
    accepting a case-insensitive match. *)
Definition key_matches (field key : string) : bool :=
  String.eqb (lower field) (lower key).

(** Decoding a JSON value into a Go [string] field: a string sets it,
    [null] leaves it, any other value is a type error that leaves it and
    decoding goes on. *)
Definition decode_string (cur : string) (v : json) : string :=
  match v with JString s => s | _ => cur end.

(** Serialisation of a string by [json.Marshal] (ASCII range): quotes,
    backslash, control characters and the HTML characters are escaped. *)
Definition hex_digit (n : nat) : ascii :=
  if (n <? 10)%nat then Ascii.ascii_of_nat (48 + n)
  else Ascii.ascii_of_nat (87 + n).

Definition dquote : string := String (Ascii.ascii_of_nat 34) EmptyString.
Definition backslash : string := String (Ascii.ascii_of_nat 92) EmptyString.

Definition escape_char (c : ascii) : string :=
  let n := Ascii.nat_of_ascii c in
  if (n =? 34)%nat then (backslash ++ dquote)%string
  else if (n =? 92)%nat then "\\"%string
  else if (n =? 10)%nat then "\n"%string
  else if (n =? 13)%nat then "\r"%string
  else if (n =? 9)%nat then "\t"%string
  else if (n <? 32)%nat || (n =? 60)%nat || (n =? 62)%nat || (n =? 38)%nat then
    ("\u00" ++ String (hex_digit (n / 16)) (String (hex_digit (n mod 16)) EmptyString))%string
  else String c EmptyString.

Fixpoint escape (s : string) : string :=
  match s with
  | EmptyString => EmptyString
  | String c s' => (escape_char c ++ escape s')%string
  end.

Definition quote (s : string) : string := (dquote ++ escape s ++ dquote)%string.

Definition comma_join (xs : list string) : string :=
  String.concat "," xs.

(** [json.Marshal] of a value. A Go map is written with its keys sorted;
    the maps built by the code have a single key. *)
Fixpoint marshal (v : json) : string :=
  match v with
  | JNull => "null"
  | JBool true => "true"
  | JBool false => "false"
  | JNumber n => pretty n
  | JString s => quote s
  | JArray xs => "[" ++ comma_join (map marshal xs) ++ "]"
  | JObject fs =>
      "{" ++ comma_join (map (fun '(k, x) => quote k ++ ":" ++ marshal x) fs) ++ "}"
  end%string.

End Json.

(* ================================================================== *)
(** ** errors.go and command.go *)
(* ================================================================== *)

Module Command.
Import Json.

(** [DataAPIError] *)
Record DataAPIError := {
  Message : string;
  ErrorCode : string;
  ExceptionClass : string;
  Family : string;
  Scope : string;
  Title : string;
  ID : string
}.

Definition zero_DataAPIError : DataAPIError :=
  {| Message := EmptyString; ErrorCode := EmptyString;
     ExceptionClass := EmptyString; Family := EmptyString;
     Scope := EmptyString; Title := EmptyString; ID := EmptyString |}.

(** Decoding one object member into a [DataAPIError] (json tags
    message, errorCode, exceptionClass, family, scope, title, id);
    unknown members are ignored. *)
Definition decode_DataAPIError_member (e : DataAPIError) (kv : string * json)
    : DataAPIError :=
  let '(k, v) := kv in
  if key_matches "message" k then
    {| Message := decode_string (Message e) v; ErrorCode := ErrorCode e;
       ExceptionClass := ExceptionClass e; Family := Family e;
       Scope := Scope e; Title := Title e; ID := ID e |}
  else if key_matches "errorCode" k then
    {| Message := Message e; ErrorCode := decode_string (ErrorCode e) v;
       ExceptionClass := ExceptionClass e; Family := Family e;
       Scope := Scope e; Title := Title e; ID := ID e |}
  else if key_matches "exceptionClass" k then
    {| Message := Message e; ErrorCode := ErrorCode e;
       ExceptionClass := decode_string (ExceptionClass e) v; Family := Family e;
       Scope := Scope e; Title := Title e; ID := ID e |}
  else if key_matches "family" k then
    {| Message := Message e; ErrorCode := ErrorCode e;
       ExceptionClass := ExceptionClass e; Family := decode_string (Family e) v;
       Scope := Scope e; Title := Title e; ID := ID e |}
  else if key_matches "scope" k then
    {| Message := Message e; ErrorCode := ErrorCode e;
       ExceptionClass := ExceptionClass e; Family := Family e;
       Scope := decode_string (Scope e) v; Title := Title e; ID := ID e |}
  else if key_matches "title" k then
    {| Message := Message e; ErrorCode := ErrorCode e;
       ExceptionClass := ExceptionClass e; Family := Family e;
       Scope := Scope e; Title := decode_string (Title e) v; ID := ID e |}
  else if key_matches "id" k then
    {| Message := Message e; ErrorCode := ErrorCode e;
       ExceptionClass := ExceptionClass e; Family := Family e;
       Scope := Scope e; Title := Title e; ID := decode_string (ID e) v |}
  else e.

(** Decoding a JSON value into a [DataAPIError] variable: an object sets
    its members in order, [null] and ill-typed values leave it. *)
Definition decode_DataAPIError (e : DataAPIError) (v : json) : DataAPIError :=
  match v with
  | JObject fs => fold_left decode_DataAPIError_member fs e
  | _ => e
  end.

(** [DataAPIErrors]: a slice of [DataAPIError]. A JSON array gives a slice
    of the same length whose elements are decoded from the zero value;
    [null] sets the slice to nil; other values leave it. *)
Definition decode_DataAPIErrors (cur : list DataAPIError) (v : json)
    : list DataAPIError :=
  match v with
  | JArray xs => map (decode_DataAPIError zero_DataAPIError) xs
  | JNull => []
  | _ => cur
  end.

(** [apiErrs] has the single field [Errors] with json tag "errors". *)
Definition decode_apiErrs_member (errs : list DataAPIError) (kv : string * json)
    : list DataAPIError :=
  let '(k, v) := kv in
  if key_matches "errors" k then decode_DataAPIErrors errs v else errs.

Definition decode_apiErrs (errs : list DataAPIError) (v : json)
    : list DataAPIError :=
  match v with
  | JObject fs => fold_left decode_apiErrs_member fs errs
  | _ => errs
  end.

(** The errors a Go program can observe here. *)
Inductive error :=
| ErrString (msg : string)                    (* errors.New(msg) *)
| ErrDataAPIErrors (errs : list DataAPIError). (* &errs.Errors *)

(** [DataAPIError.Error], defined on the pointer type. *)
Definition meta_item (label value : string) : list string :=
  if String.eqb value EmptyString then [] else [(label ++ ": " ++ value)%string].

Definition DataAPIError_Error (a : DataAPIError) : string :=
  let msg := if String.eqb (Message a) EmptyString
             then "unknown data api error"%string else Message a in
  let meta := meta_item "code" (ErrorCode a) ++ meta_item "family" (Family a)
              ++ meta_item "scope" (Scope a) in
  match meta with
  | [] => msg
  | _ => (msg ++ " (" ++ String.concat ", " meta ++ ")")%string
  end.

Definition newline : string := String (Ascii.ascii_of_nat 10) EmptyString.

(** [DataAPIErrors.Error]: [errors.Join] of the members, which writes
    their messages separated by newlines. *)
Definition DataAPIErrors_Error (e : list DataAPIError) : string :=
  match e with
  | [] => EmptyString
  | _ => String.concat newline (map DataAPIError_Error e)
  end.

(** [DataAPIErrors.Unwrap] *)
Definition DataAPIErrors_Unwrap (e : list DataAPIError) : list DataAPIError := e.

Definition Error (e : error) : string :=
  match e with
  | ErrString msg => msg
  | ErrDataAPIErrors errs => DataAPIErrors_Error errs
  end.

Section ExtractErrors.

(** [json.Unmarshal]'s syntax check and parse of a body; [None] for a
    body that is not valid JSON, in which case the target is left
    untouched. *)
Variable json_parse : string -> option json.

(** [json.Unmarshal(body, &v)] with its error ignored, into a variable
    holding [zero]. *)
Definition unmarshal {A} (decode : A -> json -> A) (zero : A) (body : string) : A :=
  match json_parse body with
  | Some v => decode zero v
  | None => zero
  end.

(** The results of [ExtractErrors]: the body and the error. *)
Record Extracted := {
  payload : string;
  err : option error
}.

(** [ExtractErrors(statusCode int, body []byte) ([]byte, error)], a method of the command pointer type. *)
Definition ExtractErrors (statusCode : Z) (body : string) : Extracted :=
  if 400 <=? statusCode then
    let transportErr := unmarshal decode_DataAPIError zero_DataAPIError body in
    if (0 <? String.length (Message transportErr))%nat then
      {| payload := body; err := Some (ErrString (Message transportErr)) |}
    else
      {| payload := body; err := Some (ErrString body) |}
  else
    let errs := unmarshal decode_apiErrs [] body in
    if (0 <? length errs)%nat then
      {| payload := body; err := Some (ErrDataAPIErrors errs) |}
    else
      {| payload := body; err := None |}.

End ExtractErrors.

(** The fields of [command] that [MarshalJSON] reads; the payload is
    given by the JSON value it marshals to. *)
Record command := {
  name : string;
  cmd_payload : json
}.

(** [command.MarshalJSON] *)
Definition MarshalJSON (c : command) : string :=
  if (0 <? String.length (name c))%nat then
    marshal (JObject [(name c, cmd_payload c)])
  else marshal (cmd_payload c).

End Command.

(** The response body of [TestCommandWarnings] (command_test.go), as the
    JSON value it parses to: documents under [data], two warnings under
    [status.warnings], no [errors]. Long texts are abridged. *)
Module CommandTestData.
Import Json Command.

Definition warning_json (code msg : string) : json :=
  JObject [("errorCode", JString code); ("message", JString msg);
           ("family", JString "REQUEST"); ("scope", JString "WARNING")].

Definition warningsResponse_json : json :=
  JObject
    [("data", JObject
        [("documents", JArray
            [JObject [("title", JString "To Kill a Mockingbird")];
             JObject [("title", JString "1984")];
             JObject [("title", JString "Pride and Prejudice")]]);
         ("nextPageState", JNull)]);
     ("status", JObject
        [("sortedRowCount", JNumber 6);
         ("warnings", JArray
            [warning_json "IN_MEMORY_SORTING_DUE_TO_NON_PARTITION_SORTING"
                          "The command used columns in the sort clause ...";
             warning_json "ZERO_FILTER_OPERATIONS"
                          "Zero filters were provided in the filter ..."])])].

(** The [warnings] array under [status]. *)
Definition status_warnings (v : json) : list json :=
  match v with
  | JObject fs =>
      match list_find (fun kv => kv.1 = "status"%string) fs with
      | Some (_, (_, JObject sfs)) =>
          match list_find (fun kv => kv.1 = "warnings"%string) sfs with
          | Some (_, (_, JArray ws)) => ws
          | _ => []
          end
      | _ => []
      end
  | _ => []
  end.

(** The body of [TestCommandAlreadyExistsErr]. *)
Definition alreadyExists_json : json :=
  JObject
    [("status", JObject [("insertedIds", JArray [])]);
     ("errors", JArray
        [JObject [("message", JString "Document already exists with the given _id");
                  ("errorCode", JString "DOCUMENT_ALREADY_EXISTS");
                  ("id", JString "4055f085-68d8-4c2d-8d91-90a0722b5fef");
                  ("title", JString "Document already exists with the given _id");
                  ("family", JString "REQUEST");
                  ("scope", JString "DOCUMENT")]])].

(** The body of [TestCommandDBResuming]. *)
Definition resuming_json : json :=
  JObject [("message", JString "Your database is resuming from hibernation and will be available in the next few minutes.")].

(** The record that body holds. *)
Definition already_exists_record : DataAPIError :=
  {| Message := "Document already exists with the given _id";
     ErrorCode := "DOCUMENT_ALREADY_EXISTS"; ExceptionClass := EmptyString;
     Family := "REQUEST"; Scope := "DOCUMENT";
     Title := "Document already exists with the given _id";
     ID := "4055f085-68d8-4c2d-8d91-90a0722b5fef" |}.

(** A parser that knows the test bodies, named by their constants. *)
Definition test_parse (s : string) : option json :=
  if String.eqb s "warningsResponse" then Some warningsResponse_json
  else if String.eqb s "createAlreadyExistsResponse" then Some alreadyExists_json
  else if String.eqb s "resumingResponse" then Some resuming_json
  else None.

End CommandTestData.

(* ================================================================== *)
(** ** cursor/cursor.go *)
(* ================================================================== *)

Module Cursor.

Inductive CursorState :=
| CursorStateIdle
| CursorStateActive
| CursorStateExhausted
| CursorStateClosed.

Definition CursorState_eqb (a b : CursorState) : bool :=
  match a, b with
  | CursorStateIdle, CursorStateIdle
  | CursorStateActive, CursorStateActive
  | CursorStateExhausted, CursorStateExhausted
  | CursorStateClosed, CursorStateClosed => true
  | _, _ => false
  end.

(** The errors a cursor records or returns; [ErrOther] stands for any
    error returned by a page fetcher or by [json.Unmarshal]. *)
Inductive error :=
| ErrCursorClosed
| ErrNoCurrentDocument
| ErrOther (msg : string).

(** A raw JSON document ([json.RawMessage]). *)
Definition RawMessage := string.

(** [PageFetcher]: given the page state, the documents, the next page
    state and an error. *)
Definition PageFetcher := option string -> list RawMessage * option string * option error.

Record Cursor := {
  fetcher : option PageFetcher;   (* nil for NewWithError *)
  state : CursorState;
  buffer : list RawMessage;
  position : Z;
  nextPageState : option string;
  err : option error;
  initialized : bool
}.

Definition set_state (c : Cursor) (s : CursorState) : Cursor :=
  {| fetcher := fetcher c; state := s; buffer := buffer c; position := position c;
     nextPageState := nextPageState c; err := err c; initialized := initialized c |}.
Definition set_position (c : Cursor) (p : Z) : Cursor :=
  {| fetcher := fetcher c; state := state c; buffer := buffer c; position := p;
     nextPageState := nextPageState c; err := err c; initialized := initialized c |}.
Definition set_err (c : Cursor) (e : error) : Cursor :=
  {| fetcher := fetcher c; state := state c; buffer := buffer c; position := position c;
     nextPageState := nextPageState c; err := Some e; initialized := initialized c |}.
Definition set_initialized (c : Cursor) : Cursor :=
  {| fetcher := fetcher c; state := state c; buffer := buffer c; position := position c;
     nextPageState := nextPageState c; err := err c; initialized := true |}.

(** [New] *)
Definition New (f : PageFetcher) : Cursor :=
  {| fetcher := Some f; state := CursorStateIdle; buffer := []; position := -1;
     nextPageState := None; err := None; initialized := false |}.

(** [NewWithError]: the fields it does not set keep Go's zero values. *)
Definition NewWithError (e : option error) : Cursor :=
  {| fetcher := None; state := CursorStateExhausted; buffer := []; position := 0;
     nextPageState := None; err := e; initialized := false |}.

Definition page_state_empty (p : option string) : bool :=
  match p with None => true | Some s => String.eqb s EmptyString end.

(** [NewWithInitialData] *)
Definition NewWithInitialData (documents : list RawMessage)
    (nextPageState0 : option string) (f : PageFetcher) : Cursor :=
  let st := if (length documents =? 0)%nat && page_state_empty nextPageState0
            then CursorStateExhausted else CursorStateIdle in
  {| fetcher := Some f; state := st; buffer := documents; position := -1;
     nextPageState := nextPageState0; err := None; initialized := true |}.

(** Calling the fetcher. A nil fetcher makes Go panic; it only occurs in
    cursors built by [NewWithError], and is modelled as a failed fetch. *)
Definition call_fetcher (c : Cursor) (pageState : option string)
    : list RawMessage * option string * option error :=
  match fetcher c with
  | Some f => f pageState
  | None => ([], None, Some (ErrOther "nil fetcher"))
  end.

(** [fetchPageLocked]: on success the buffer, position and next page
    state are replaced; on error the cursor is left as it was. *)
Definition fetchPageLocked (c : Cursor) (pageState : option string)
    : Cursor + error :=
  match call_fetcher c pageState with
  | (_, _, Some e) => inr e
  | (documents, nextState, None) =>
      inl {| fetcher := fetcher c; state := state c; buffer := documents;
             position := -1; nextPageState := nextState; err := err c;
             initialized := initialized c |}
  end.

(** Every operation returns its result, the new cursor and the page
    states the fetcher was called with, in order. *)
Definition Fetches := list (option string).

(** [Next], after the first-page initialisation. *)
Definition Next_active (c : Cursor) (log : Fetches) : bool * Cursor * Fetches :=
  let c := set_state c CursorStateActive in
  if position c + 1 <? Z.of_nat (length (buffer c)) then
    (true, set_position c (position c + 1), log)
  else if page_state_empty (nextPageState c) then
    (false, set_state c CursorStateExhausted, log)
  else
    match fetchPageLocked c (nextPageState c) with
    | inr e => (false, set_err c e, log ++ [nextPageState c])
    | inl c' =>
        if (length (buffer c') =? 0)%nat then
          (false, set_state c' CursorStateExhausted, log ++ [nextPageState c])
        else (true, set_position c' 0, log ++ [nextPageState c])
    end.

(** [Next] *)
Definition Next (c : Cursor) : bool * Cursor * Fetches :=
  match state c with
  | CursorStateClosed => (false, set_err c ErrCursorClosed, [])
  | CursorStateExhausted => (false, c, [])
  | _ =>
      if negb (initialized c) then
        match fetchPageLocked c None with
        | inr e => (false, set_err c e, [None])
        | inl c' => Next_active (set_initialized c') [None]
        end
      else Next_active c []
  end.

(** [Decode]: the document to unmarshal, or the error. *)
Definition Decode (c : Cursor) : RawMessage + error :=
  if CursorState_eqb (state c) CursorStateClosed then inr ErrCursorClosed
  else if (position c <? 0) || (Z.of_nat (length (buffer c)) <=? position c)
  then inr ErrNoCurrentDocument
  else match nth_error (buffer c) (Z.to_nat (position c)) with
       | Some d => inl d
       | None => inr ErrNoCurrentDocument
       end.

(** [Current]: [None] is the nil [RawMessage]. *)
Definition Current (c : Cursor) : option RawMessage :=
  if (position c <? 0) || (Z.of_nat (length (buffer c)) <=? position c) then None
  else nth_error (buffer c) (Z.to_nat (position c)).

(** [Err] *)
Definition Err (c : Cursor) : option error := err c.

(** [Close]: always returns nil. *)
Definition Close (c : Cursor) : option error * Cursor :=
  if CursorState_eqb (state c) CursorStateClosed then (None, c)
  else (None, {| fetcher := fetcher c; state := CursorStateClosed; buffer := [];
                 position := position c; nextPageState := None; err := err c;
                 initialized := initialized c |}).

(** The loop of [All] over the remaining pages; [fuel] bounds the number
    of pages (the Go loop runs as long as the fetcher hands out tokens). *)
Fixpoint All_pages (fuel : nat) (c : Cursor) (allDocs : list RawMessage)
    (log : Fetches) : (list RawMessage + error) * Cursor * Fetches :=
  if page_state_empty (nextPageState c) then (inl allDocs, c, log)
  else match fuel with
       | O => (inl allDocs, c, log)
       | S fuel' =>
           match fetchPageLocked c (nextPageState c) with
           | inr e => (inr e, set_err c e, log ++ [nextPageState c])
           | inl c' => All_pages fuel' c' (allDocs ++ buffer c')
                                 (log ++ [nextPageState c])
           end
       end.

(** [All]; [unmarshal] is the final [json.Marshal]/[json.Unmarshal] of
    the collected documents into the caller's slice. *)
Definition All (fuel : nat) (unmarshal : list RawMessage -> option error)
    (c : Cursor) : option error * Cursor * Fetches :=
  if CursorState_eqb (state c) CursorStateClosed then (Some ErrCursorClosed, c, [])
  else
    let init :=
      if negb (initialized c) then
        match fetchPageLocked c None with
        | inr e => inr e
        | inl c' => inl (set_initialized c', [None])
        end
      else inl (c, []) in
    match init with
    | inr e => (Some e, set_err c e, [None])
    | inl (c1, log1) =>
        let rest :=
          if position c1 <? 0 then buffer c1
          else if position c1 + 1 <? Z.of_nat (length (buffer c1))
          then drop (Z.to_nat (position c1 + 1)) (buffer c1)
          else [] in
        match All_pages fuel c1 rest log1 with
        | (inr e, c2, log2) => (Some e, c2, log2)
        | (inl allDocs, c2, log2) =>
            (unmarshal allDocs, set_state c2 CursorStateExhausted, log2)
        end
    end.

(** Operations a caller performs on a cursor. *)
Inductive Op :=
| OpNext
| OpDecode
| OpAll (fuel : nat) (unmarshal : list RawMessage -> option error)
| OpClose.

(** What an operation returns: Next's boolean, Decode's document or
    error, All's and Close's error. *)
Inductive Outcome :=
| NextResult (b : bool)
| DecodeResult (r : RawMessage + error)
| ErrResult (e : option error).

Definition step (op : Op) (c : Cursor) : Outcome * Cursor * Fetches :=
  match op with
  | OpNext => let '(b, c', l) := Next c in (NextResult b, c', l)
  | OpDecode => (DecodeResult (Decode c), c, [])
  | OpAll fuel u => let '(e, c', l) := All fuel u c in (ErrResult e, c', l)
  | OpClose => let '(e, c') := Close c in (ErrResult e, c', [])
  end.

Fixpoint run (ops : list Op) (c : Cursor) : list Outcome * Cursor * Fetches :=
  match ops with
  | [] => ([], c, [])
  | op :: ops' =>
      let '(o, c1, l1) := step op c in
      let '(os, c2, l2) := run ops' c1 in
      (o :: os, c2, l1 ++ l2)
  end.

(** The usual loop [for c.Next(ctx) { ... c.Current() ... }] for at most
    [fuel] calls: the documents seen, the cursor and the fetches. *)
Fixpoint drain (fuel : nat) (c : Cursor) : list (option RawMessage) * Cursor * Fetches :=
  match fuel with
  | O => ([], c, [])
  | S fuel' =>
      let '(b, c1, l1) := Next c in
      if b then
        let '(ds, c2, l2) := drain fuel' c1 in (Current c1 :: ds, c2, l1 ++ l2)
      else ([], c1, l1)
  end.

(** What a closed cursor answers to each operation. *)
Definition closed_outcome (op : Op) : Outcome :=
  match op with
  | OpNext => NextResult false
  | OpDecode => DecodeResult (inr ErrCursorClosed)
  | OpAll _ _ => ErrResult (Some ErrCursorClosed)
  | OpClose => ErrResult None
  end.

(** The position invariant: [-1 <= position <= len(buffer) - 1]. *)
Definition position_in_range (c : Cursor) : Prop :=
  -1 <= position c <= Z.of_nat (length (buffer c)) - 1.

(** A three-page fetcher: A = [a1; a2] then token T1, B = [b1; b2] then
    token T2, C = [c1] and no token. *)
Definition three_page_fetcher : PageFetcher :=
  fun p => match p with
           | None => (["a1"; "a2"]%string, Some "T1"%string, None)
           | Some s =>
               if String.eqb s "T1" then (["b1"; "b2"]%string, Some "T2"%string, None)
               else if String.eqb s "T2" then (["c1"]%string, None, None)
               else ([], None, Some (ErrOther "unknown page state"))
           end.

End Cursor.

(* ================================================================== *)
(** ** The [With*] options, [NewAPIOptions] and the getters
       (options/api_options.go) *)
(* ================================================================== *)

Module OptionsExt.
Import Options.

(** An [APIOption] closure, given by the [With*] constructor that built
    it and the arguments it captured. [WithHTTPClient] and
    [WithWarningHandler] accept nil; [WithHeaders] accepts a nil map. *)
Inductive APIOption :=
| WithToken (token : string)
| WithKeyspace (keyspace : string)
| WithAPIVersion (version : string)
| WithHTTPClient (client : option HTTPClient)
| WithHeader (key value : string)
| WithHeaders (headers : option (gmap string string))
| WithRequestTimeout (d : Duration)
| WithConnectionTimeout (d : Duration)
| WithBulkOperationTimeout (d : Duration)
| WithWarningHandler (handler : option WarningHandler).

(** [WithTimeout] returns [WithRequestTimeout(d)]. *)
Definition WithTimeout (d : Duration) : APIOption := WithRequestTimeout d.

Definition headers_or_empty (h : option (gmap string string)) : gmap string string :=
  match h with Some m => m | None => ∅ end.

Definition timeout_or_empty (t : option TimeoutOptions) : TimeoutOptions :=
  match t with Some t => t | None => empty_timeout end.

Definition set_Token (o : APIOptions) (v : option string) : APIOptions :=
  {| Token := v; Keyspace := Keyspace o; APIVersion := APIVersion o;
     HTTPClient_ := HTTPClient_ o; Headers := Headers o; Timeout := Timeout o;
     Serdes := Serdes o; WarningHandler_ := WarningHandler_ o |}.
Definition set_Keyspace (o : APIOptions) (v : option string) : APIOptions :=
  {| Token := Token o; Keyspace := v; APIVersion := APIVersion o;
     HTTPClient_ := HTTPClient_ o; Headers := Headers o; Timeout := Timeout o;
     Serdes := Serdes o; WarningHandler_ := WarningHandler_ o |}.
Definition set_APIVersion (o : APIOptions) (v : option string) : APIOptions :=
  {| Token := Token o; Keyspace := Keyspace o; APIVersion := v;
     HTTPClient_ := HTTPClient_ o; Headers := Headers o; Timeout := Timeout o;
     Serdes := Serdes o; WarningHandler_ := WarningHandler_ o |}.
Definition set_HTTPClient (o : APIOptions) (v : option HTTPClient) : APIOptions :=
  {| Token := Token o; Keyspace := Keyspace o; APIVersion := APIVersion o;
     HTTPClient_ := v; Headers := Headers o; Timeout := Timeout o;
     Serdes := Serdes o; WarningHandler_ := WarningHandler_ o |}.
Definition set_Headers (o : APIOptions) (v : option (gmap string string)) : APIOptions :=
  {| Token := Token o; Keyspace := Keyspace o; APIVersion := APIVersion o;
     HTTPClient_ := HTTPClient_ o; Headers := v; Timeout := Timeout o;
     Serdes := Serdes o; WarningHandler_ := WarningHandler_ o |}.
Definition set_Timeout (o : APIOptions) (v : option TimeoutOptions) : APIOptions :=
  {| Token := Token o; Keyspace := Keyspace o; APIVersion := APIVersion o;
     HTTPClient_ := HTTPClient_ o; Headers := Headers o; Timeout := v;
     Serdes := Serdes o; WarningHandler_ := WarningHandler_ o |}.
Definition set_WarningHandler (o : APIOptions) (v : option WarningHandler) : APIOptions :=
  {| Token := Token o; Keyspace := Keyspace o; APIVersion := APIVersion o;
     HTTPClient_ := HTTPClient_ o; Headers := Headers o; Timeout := Timeout o;
     Serdes := Serdes o; WarningHandler_ := v |}.

(** Running the closure [opt(o)]. *)
Definition apply_opt (opt : APIOption) (o : APIOptions) : APIOptions :=
  match opt with
  | WithToken t => set_Token o (Some t)
  | WithKeyspace k => set_Keyspace o (Some k)
  | WithAPIVersion v => set_APIVersion o (Some v)
  | WithHTTPClient cl => set_HTTPClient o cl
  | WithHeader k v => set_Headers o (Some (<[k:=v]> (headers_or_empty (Headers o))))
  | WithHeaders hs =>
      set_Headers o (Some (headers_or_empty hs ∪ headers_or_empty (Headers o)))
  | WithRequestTimeout d =>
      let t := timeout_or_empty (Timeout o) in
      set_Timeout o (Some {| Request := Some d; Connection := Connection t;
                             BulkOperation := BulkOperation t |})
  | WithConnectionTimeout d =>
      let t := timeout_or_empty (Timeout o) in
      set_Timeout o (Some {| Request := Request t; Connection := Some d;
                             BulkOperation := BulkOperation t |})
  | WithBulkOperationTimeout d =>
      let t := timeout_or_empty (Timeout o) in
      set_Timeout o (Some {| Request := Request t; Connection := Connection t;
                             BulkOperation := Some d |})
  | WithWarningHandler h => set_WarningHandler o h
  end.

(** [NewAPIOptions(opts ...APIOption)] *)
Definition NewAPIOptions (opts : list APIOption) : APIOptions :=
  fold_left (fun o opt => apply_opt opt o) opts
    {| Token := None; Keyspace := None; APIVersion := None; HTTPClient_ := None;
       Headers := Some ∅; Timeout := None; Serdes := None; WarningHandler_ := None |}.

(** The getters; their receiver may be nil. *)
Definition GetToken (o : option APIOptions) : string :=
  match o with
  | Some o => match Token o with Some t => t | None => EmptyString end
  | None => EmptyString
  end.

Definition GetKeyspace (o : option APIOptions) : string :=
  match o with
  | Some o => match Keyspace o with Some k => k | None => "default_keyspace"%string end
  | None => "default_keyspace"%string
  end.

Definition GetAPIVersion (o : option APIOptions) : string :=
  match o with
  | Some o => match APIVersion o with Some v => v | None => "v1"%string end
  | None => "v1"%string
  end.

(** [GetHTTPClient] returns a fresh default client when none is set. *)
Definition GetHTTPClient (o : option APIOptions) : HTTPClient :=
  match o with
  | Some o => match HTTPClient_ o with Some cl => cl | None => DefaultHTTPClient end
  | None => DefaultHTTPClient
  end.

Definition GetRequestTimeout (o : option APIOptions) : Duration :=
  match o with
  | Some o =>
      match Timeout o with
      | Some t => match Request t with Some d => d | None => 30 * Second end
      | None => 30 * Second
      end
  | None => 30 * Second
  end.

(** What an option sets, read off [apply_opt]: the keyspace, the request
    timeout and the value of one header. *)
Definition opt_keyspace (opt : APIOption) : option string :=
  match opt with WithKeyspace k => Some k | _ => None end.

Definition opt_token (opt : APIOption) : option string :=
  match opt with WithToken t => Some t | _ => None end.

Definition opt_api_version (opt : APIOption) : option string :=
  match opt with WithAPIVersion v => Some v | _ => None end.

Definition opt_request_timeout (opt : APIOption) : option Duration :=
  match opt with WithRequestTimeout d => Some d | _ => None end.

Definition opt_header (k : string) (opt : APIOption) : option string :=
  match opt with
  | WithHeader k' v => if String.eqb k k' then Some v else None
  | WithHeaders hs => headers_or_empty hs !! k
  | _ => None
  end.

(** The value set by the last option that sets one. *)
Definition last_set {A} (f : APIOption -> option A) (opts : list APIOption) : option A :=
  fold_left (fun acc opt => override (f opt) acc) opts None.

End OptionsExt.

(* ================================================================== *)
(** ** Option layers of the client hierarchy and command routing
       (client.go, the [Db] type, collection.go, table.go, command.go) *)
(* ================================================================== *)

Module Route.
Import Options OptionsExt.

Record DataAPIClient := { client_options : option APIOptions }.

Record Db := {
  endpoint : string;
  db_client : option DataAPIClient;
  db_options : option APIOptions
}.

(** A collection or a table: both hold a database, a name and options. *)
Record Resource := {
  res_db : option Db;
  res_name : string;
  res_options : option APIOptions
}.

(** The routing fields of [command]; its payload plays no part here. *)
Record command := {
  db : option Db;
  name : string;
  keyspace : string;
  apiVersion : string;
  resourceName : string;
  resourceOptions : option APIOptions;
  commandOptions : option APIOptions
}.

(** [NewClient] *)
Definition NewClient (opts : list APIOption) : DataAPIClient :=
  {| client_options := Some (NewAPIOptions opts) |}.

(** [DataAPIClient.Database] *)
Definition Database (c : DataAPIClient) (endpoint0 : string) (opts : list APIOption) : Db :=
  {| endpoint := endpoint0; db_client := Some c; db_options := Some (NewAPIOptions opts) |}.

(** [Db.Collection] and [Db.Table] *)
Definition Collection (d : Db) (name0 : string) (opts : list APIOption) : Resource :=
  {| res_db := Some d; res_name := name0; res_options := Some (NewAPIOptions opts) |}.

(** [newCmd] *)
Definition newCmd (d : option Db) (name0 : string) : command :=
  {| db := d; name := name0; keyspace := EmptyString; apiVersion := EmptyString;
     resourceName := EmptyString; resourceOptions := None; commandOptions := None |}.

(** [newCmdResource] *)
Definition newCmdResource (d : option Db) (resource name0 : string) : command :=
  {| db := d; name := name0; keyspace := EmptyString; apiVersion := EmptyString;
     resourceName := resource; resourceOptions := None; commandOptions := None |}.

(** [newCmdWithOptions] *)
Definition newCmdWithOptions (d : option Db) (resource name0 : string)
    (resourceOpts : option APIOptions) (cmdOpts : list APIOption) : command :=
  {| db := d; name := name0; keyspace := EmptyString; apiVersion := EmptyString;
     resourceName := resource; resourceOptions := resourceOpts;
     commandOptions := if (0 <? length cmdOpts)%nat
                       then Some (NewAPIOptions cmdOpts) else None |}.

(** [Collection.newCmd] and [Table.newCmd] *)
Definition resource_newCmd (r : Resource) (name0 : string) (opts : list APIOption) : command :=
  newCmdWithOptions (res_db r) (res_name r) name0 (res_options r) opts.

(** [command.resolveOptions] *)
Definition resolveOptions (c : command) : APIOptions :=
  let '(clientOpts, dbOpts) :=
    match db c with
    | Some d =>
        (match db_client d with Some cl => client_options cl | None => None end,
         db_options d)
    | None => (None, None)
    end in
  Merge [clientOpts; dbOpts; resourceOptions c; commandOptions c].

(** [command.Keyspace] *)
Definition Keyspace_ (c : command) : string :=
  if (0 <? String.length (keyspace c))%nat then keyspace c
  else GetKeyspace (Some (resolveOptions c)).

(** [command.ApiVersion] *)
Definition ApiVersion (c : command) : string :=
  if (0 <? String.length (apiVersion c))%nat then apiVersion c
  else GetAPIVersion (Some (resolveOptions c)).

Section Url.

(** [url.JoinPath(base, elem...)]: the joined URL or the parse error of
    the base. *)
Variable JoinPath : string -> list string -> string + string.

(** [command.url]: the URL or the error message. *)
Definition url (c : command) : string + string :=
  match db c with
  | None => inr "nil Db"%string
  | Some d =>
      if (String.length (endpoint d) =? 0)%nat then inr "empty API endpoint"%string
      else JoinPath (endpoint d) ["/api/json"%string; ApiVersion c; Keyspace_ c; resourceName c]
  end.

End Url.

End Route.

(* ================================================================== *)
(** ** The remaining cursor methods (cursor/cursor.go) *)
(* ================================================================== *)

Module CursorExt.
Import Cursor.

(** [RemainingBatchLength] *)
Definition RemainingBatchLength (c : Cursor) : Z :=
  if position c <? 0 then Z.of_nat (length (buffer c))
  else
    let remaining := Z.of_nat (length (buffer c)) - position c - 1 in
    if remaining <? 0 then 0 else remaining.

(** [HasNextPage] *)
Definition HasNextPage (c : Cursor) : bool :=
  negb (page_state_empty (nextPageState c)).

(** What the callback of [Iterate] returns: nil, an error that
    [errors.Is] matches to [io.EOF], or another error. *)
Inductive FnResult :=
| FnNil
| FnEOF
| FnErr (e : error).

(** [Iterate] for at most [fuel] calls of [Next]: the error returned, the
    documents passed to [fn] in order, the cursor and the fetches;
    [None] when the fuel runs out. *)
Fixpoint Iterate (fuel : nat) (fn : option RawMessage -> FnResult) (c : Cursor)
    : option (option error * list (option RawMessage) * Cursor * Fetches) :=
  match fuel with
  | O => None
  | S fuel' =>
      let '(b, c1, l1) := Next c in
      if b then
        let doc := Current c1 in
        match fn doc with
        | FnNil =>
            match Iterate fuel' fn c1 with
            | Some (r, calls, c2, l2) => Some (r, doc :: calls, c2, l1 ++ l2)
            | None => None
            end
        | FnEOF => Some (None, [doc], c1, l1)
        | FnErr e => Some (Some e, [doc], c1, l1)
        end
      else Some (Err c1, [], c1, l1)
  end.

(** Whether a cursor holds an error. *)
Definition has_err (c : Cursor) : Prop := is_Some (err c).

End CursorExt.

(** Fetchers and cursors used to exercise the cursor properties. *)
Module CursorTestData.
Import Cursor CursorExt.

(** A fetcher whose second page cannot be fetched. *)
Definition failing_second_page : PageFetcher :=
  fun p => match p with
           | None => (["a1"]%string, Some "T1"%string, None)
           | Some _ => ([], None, Some (ErrOther "unavailable"))
           end.

(** A fetcher whose second page is empty but points to a third. *)
Definition empty_second_page : PageFetcher :=
  fun p => match p with
           | None => (["a1"]%string, Some "T1"%string, None)
           | Some s => if String.eqb s "T1" then ([], Some "T2"%string, None)
                       else (["c1"]%string, None, None)
           end.

(** The cursor of [failing_second_page] after its first document. *)
Definition on_last_buffered (f : PageFetcher) : Cursor :=
  {| fetcher := Some f; state := CursorStateActive; buffer := ["a1"%string];
     position := 0; nextPageState := Some "T1"%string; err := None;
     initialized := true |}.

Definition stop_at_b1 (d : option RawMessage) : FnResult :=
  match d with
  | Some s => if String.eqb s "b1" then FnEOF else FnNil
  | None => FnNil
  end.

End CursorTestData.

(* ================================================================== *)
(** ** [json.Unmarshal] with its errors, and the result types
       (results/count_result.go, results/single_result.go) *)
(* ================================================================== *)

Module Results.
Import Json.

(** The errors of the results package: [ErrNoDocuments],
    [ErrTooManyDocumentsToCount], the [*json.SyntaxError] of an invalid
    or empty input, the [*json.UnmarshalTypeError] of an ill-typed value,
    and an error carried over from the command ([ErrOther]). *)
Inductive error :=
| ErrNoDocuments
| ErrTooManyDocumentsToCount
| ErrSyntax
| ErrUnmarshalType
| ErrOther (msg : string).

(** [json.Unmarshal] reports the first error it meets and goes on
    decoding the rest of the value. *)
Definition first_err (a b : option error) : option error :=
  match a with Some _ => a | None => b end.

(** A Go [int] (64 bits). JSON numbers are integers in this model. *)
Definition int_min : Z := - 2 ^ 63.
Definition int_max : Z := 2 ^ 63 - 1.

Definition decode_int (cur : Z) (v : json) : Z * option error :=
  match v with
  | JNumber n => if (int_min <=? n) && (n <=? int_max) then (n, None)
                 else (cur, Some ErrUnmarshalType)
  | JNull => (cur, None)
  | _ => (cur, Some ErrUnmarshalType)
  end.

Definition decode_bool (cur : bool) (v : json) : bool * option error :=
  match v with
  | JBool b => (b, None)
  | JNull => (cur, None)
  | _ => (cur, Some ErrUnmarshalType)
  end.

(** A [json.RawMessage] field, held as the JSON value it contains
    ([None] is the nil message). It takes any value, [null] included
    (its text is then "null"). *)
Definition decode_raw (cur : option json) (v : json) : option json * option error :=
  (Some v, None).

(** A [*string] field: a string sets it, [null] sets it to nil. *)
Definition decode_string_ptr (cur : option string) (v : json) : option string * option error :=
  match v with
  | JString s => (Some s, None)
  | JNull => (None, None)
  | _ => (cur, Some ErrUnmarshalType)
  end.

(** Decoding an object into a struct: each member whose key matches a
    field (case-insensitively) is decoded into that field, the others are
    skipped; [null] leaves the struct; other values are type errors. *)
Definition decode_struct {A} (member : A -> string -> json -> A * option error)
    (cur : A) (v : json) : A * option error :=
  match v with
  | JObject fs =>
      fold_left (fun acc kv => let '(a, e) := acc in
                               let '(a', e') := member a kv.1 kv.2 in
                               (a', first_err e e')) fs (cur, None)
  | JNull => (cur, None)
  | _ => (cur, Some ErrUnmarshalType)
  end.

Section Unmarshal.

(** The syntax check and parse of [json.Unmarshal]. *)
Variable json_parse : string -> option json.

(** [json.Unmarshal(data, &v)] with [v] holding [cur]: an invalid input
    leaves [v] and returns a syntax error. *)
Definition unmarshal_e {A} (decode : A -> json -> A * option error) (cur : A)
    (data : string) : A * option error :=
  match json_parse data with
  | Some v => decode cur v
  | None => (cur, Some ErrSyntax)
  end.

End Unmarshal.

(** [CountResultJSON]: the fields [Count] and [MoreData] of its [Status]. *)
Record CountResultJSON := {
  Count : Z;
  MoreData : bool
}.

Definition zero_CountResultJSON : CountResultJSON := {| Count := 0; MoreData := false |}.

Definition decode_status_member (s : CountResultJSON) (k : string) (v : json)
    : CountResultJSON * option error :=
  if key_matches "count" k then
    let '(n, e) := decode_int (Count s) v in ({| Count := n; MoreData := MoreData s |}, e)
  else if key_matches "moreData" k then
    let '(b, e) := decode_bool (MoreData s) v in ({| Count := Count s; MoreData := b |}, e)
  else (s, None).

Definition decode_CountResultJSON (r : CountResultJSON) (v : json)
    : CountResultJSON * option error :=
  decode_struct (fun r k v => if key_matches "status" k
                              then decode_struct decode_status_member r v
                              else (r, None)) r v.

(** [CountResult] *)
Record CountResult := {
  cr_err : option error;
  cr_rawResp : string
}.

Section CountResult.
Variable json_parse : string -> option json.

(** [CountResult.Decode] *)
Definition CountResult_Decode (mr : CountResult) (v : CountResultJSON)
    : CountResultJSON * option error :=
  match cr_err mr with
  | Some e => (v, Some e)
  | None =>
      if (String.length (cr_rawResp mr) =? 0)%nat then (v, Some ErrNoDocuments)
      else unmarshal_e json_parse decode_CountResultJSON v (cr_rawResp mr)
  end.

(** [CountResult.Count] *)
Definition Count_ (mr : CountResult) (upperBound : Z) : Z * option error :=
  match cr_err mr with
  | Some e => (0, Some e)
  | None =>
      let '(resp, err) := CountResult_Decode mr zero_CountResultJSON in
      if MoreData resp || ((0 <? upperBound) && (upperBound <? Count resp))
      then (Count resp, Some ErrTooManyDocumentsToCount)
      else (Count resp, err)
  end.

End CountResult.

(** [singleResultJSON]: its [Data.Document]. *)
Definition decode_singleResultJSON (doc : option json) (v : json)
    : option json * option error :=
  decode_struct (fun doc k v =>
    if key_matches "data" k then
      decode_struct (fun doc k v => if key_matches "document" k then decode_raw doc v
                                    else (doc, None)) doc v
    else (doc, None)) doc v.

(** [SingleResult] *)
Record SingleResult := {
  sr_err : option error;
  sr_rawResp : string
}.

Section SingleResult.
Variable json_parse : string -> option json.

(** [SingleResult.Decode(v)], with [decode] the decoding of a document
    into the caller's variable [v], which holds [cur]. The document is a
    valid JSON value here, so only [decode]'s own errors can arise from
    it. A nil document is an empty input: a syntax error. *)
Definition SingleResult_Decode {A} (decode : A -> json -> A * option error)
    (sr : SingleResult) (cur : A) : A * option error :=
  match sr_err sr with
  | Some e => (cur, Some e)
  | None =>
      if (String.length (sr_rawResp sr) =? 0)%nat then (cur, Some ErrNoDocuments)
      else
        match unmarshal_e json_parse decode_singleResultJSON None (sr_rawResp sr) with
        | (_, Some e) => (cur, Some e)
        | (Some JNull, None) => (cur, Some ErrNoDocuments)
        | (Some d, None) => decode cur d
        | (None, None) => (cur, Some ErrSyntax)
        end
  end.

End SingleResult.

End Results.

(* ================================================================== *)
(** ** [Warning.String] (results/warnings.go) *)
(* ================================================================== *)

Module Warnings.
Import Command.

(** [Warning] *)
Record Warning := {
  W_Message : string;
  W_ErrorCode : string;
  W_Family : string;
  W_Scope : string;
  W_Title : string;
  W_ID : string
}.

(** [Warning.String], defined on the pointer type. *)
Definition Warning_String (w : option Warning) : string :=
  match w with
  | None => "<nil> Warning"%string
  | Some w =>
      let msg := if String.eqb (W_Message w) EmptyString
                 then "unknown warning"%string else W_Message w in
      let meta := meta_item "code" (W_ErrorCode w) ++ meta_item "family" (W_Family w)
                  ++ meta_item "scope" (W_Scope w) in
      match meta with
      | [] => msg
      | _ => (msg ++ " (" ++ String.concat ", " meta ++ ")")%string
      end
  end.

(** The [DataAPIError] with the fields of a warning, an empty message
    replaced by "unknown warning". *)
Definition warning_as_error (w : Warning) : DataAPIError :=
  {| Message := if String.eqb (W_Message w) EmptyString
                then "unknown warning"%string else W_Message w;
     ErrorCode := W_ErrorCode w; ExceptionClass := EmptyString;
     Family := W_Family w; Scope := W_Scope w; Title := W_Title w; ID := W_ID w |}.

End Warnings.

(* ================================================================== *)
(** ** The DevOps API: region options and errors (admin.go,
       options/admin_options.go, options/options.go) *)
(* ================================================================== *)

Module Admin.
Import Json Results.

(** [FindAvailableRegionsOptions] *)
Record FindAvailableRegionsOptions := {
  RegionType : option string;
  FilterByOrg : option string
}.

(** The setters a [Lister] hands out: those appended by the builder's
    [SetRegionType] and [SetFilterByOrg], and the closure of the struct's
    own [List], which runs [copyNonNilFields] from the struct. *)
Inductive setter :=
| SetRegionType (v : string)
| SetFilterByOrg (v : string)
| CopyNonNilFields (src : FindAvailableRegionsOptions).

(** [copyNonNilFields(src, dst)]: every non-nil pointer field of [src]
    is copied into [dst]. *)
Definition copyNonNilFields (src dst : FindAvailableRegionsOptions)
    : FindAvailableRegionsOptions :=
  {| RegionType := match RegionType src with Some v => Some v | None => RegionType dst end;
     FilterByOrg := match FilterByOrg src with Some v => Some v | None => FilterByOrg dst end |}.

Definition apply_setter (s : setter) (o : FindAvailableRegionsOptions)
    : FindAvailableRegionsOptions :=
  match s with
  | SetRegionType v => {| RegionType := Some v; FilterByOrg := FilterByOrg o |}
  | SetFilterByOrg v => {| RegionType := RegionType o; FilterByOrg := Some v |}
  | CopyNonNilFields src => copyNonNilFields src o
  end.

(** [FindAvailableRegionsOptions.List] *)
Definition options_List (o : FindAvailableRegionsOptions) : list setter :=
  [CopyNonNilFields o].

(** A [FindAvailableRegionsOptionsBuilder]: its [Opts]. [List] returns
    them and the setters append to them. *)
Definition Builder := list setter.
Definition builder_List (b : Builder) : list setter := b.
Definition FindAvailableRegions_builder : Builder := [].
Definition builder_SetRegionType (b : Builder) (v : string) : Builder := b ++ [SetRegionType v].
Definition builder_SetFilterByOrg (b : Builder) (v : string) : Builder := b ++ [SetFilterByOrg v].

(** [FindAvailableRegionsOptions.Validate] *)
Definition Validate (o : FindAvailableRegionsOptions) : option error := None.

(** [MergeOptions(opts ...Lister[T])]: each non-nil lister, given by the
    setters its [List] returns, runs them in order on a zero value. *)
Definition MergeOptions (opts : list (option (list setter)))
    : FindAvailableRegionsOptions * option error :=
  let result := fold_left (fun r opt =>
                  match opt with
                  | None => r
                  | Some setters => fold_left (fun r s => apply_setter s r) setters r
                  end) opts {| RegionType := None; FilterByOrg := None |} in
  (result, Validate result).

(** The query of [FindAvailableRegions]: the parameters set from the
    merged options, in the key order of [url.Values.Encode]. *)
Definition region_query (merged : FindAvailableRegionsOptions) : list (string * string) :=
  let q_region := match RegionType merged with
                  | Some v => if String.eqb v EmptyString then [] else [("region-type"%string, v)]
                  | None => []
                  end in
  let q_org := match FilterByOrg merged with
               | Some v => if String.eqb v EmptyString then [] else [("filter-by-org"%string, v)]
               | None => []
               end in
  q_org ++ q_region.

(** The region type and organisation filter a setter writes. *)
Definition setter_region (s : setter) : option string :=
  match s with
  | SetRegionType v => Some v
  | SetFilterByOrg _ => None
  | CopyNonNilFields src => RegionType src
  end.

Definition setter_org (s : setter) : option string :=
  match s with
  | SetRegionType _ => None
  | SetFilterByOrg v => Some v
  | CopyNonNilFields src => FilterByOrg src
  end.

(** The value written by the last setter that writes one. *)
Definition last_write (f : setter -> option string) (ss : list setter) : option string :=
  fold_left (fun acc s => match f s with Some v => Some v | None => acc end) ss None.

(** The setters of the non-nil listers, in order. *)
Definition all_setters (opts : list (option (list setter))) : list setter :=
  concat (map (fun o => match o with Some ss => ss | None => [] end) opts).

(** The body of a DevOps API error: [Message string], [Errors []string]. *)
Record devOpsErr := {
  do_Message : string;
  do_Errors : list string
}.

Definition decode_string_e (cur : string) (v : json) : string * option error :=
  match v with
  | JString s => (s, None)
  | JNull => (cur, None)
  | _ => (cur, Some ErrUnmarshalType)
  end.

(** A JSON array into a [[]string]: one element per array element, each
    decoded from "", ill-typed elements staying "" with a type error. *)
Definition decode_string_slice (cur : list string) (v : json) : list string * option error :=
  match v with
  | JArray xs =>
      (map (fun x => (decode_string_e EmptyString x).1) xs,
       fold_left (fun e x => first_err e (decode_string_e EmptyString x).2) xs None)
  | JNull => ([], None)
  | _ => (cur, Some ErrUnmarshalType)
  end.

Definition decode_devOpsErr_member (d : devOpsErr) (k : string) (v : json)
    : devOpsErr * option error :=
  if key_matches "message" k then
    let '(m, e) := decode_string_e (do_Message d) v in
    ({| do_Message := m; do_Errors := do_Errors d |}, e)
  else if key_matches "errors" k then
    let '(es, e) := decode_string_slice (do_Errors d) v in
    ({| do_Message := do_Message d; do_Errors := es |}, e)
  else (d, None).

Definition devOps_prefix (statusCode : Z) : string :=
  ("DevOps API error (status " ++ pretty statusCode ++ "): ")%string.

Section DevOps.
Variable json_parse : string -> option json.

(** [Admin.extractDevOpsError]: the message of the error. *)
Definition extractDevOpsError (statusCode : Z) (body : string) : string :=
  match unmarshal_e json_parse (decode_struct decode_devOpsErr_member)
          {| do_Message := EmptyString; do_Errors := [] |} body with
  | (d, None) =>
      if String.eqb (do_Message d) EmptyString then (devOps_prefix statusCode ++ body)%string
      else (devOps_prefix statusCode ++ do_Message d)%string
  | (_, Some _) => (devOps_prefix statusCode ++ body)%string
  end.

End DevOps.

(** The array elements a [string] takes without a type error. *)
Definition string_or_null (v : json) : bool :=
  match v with JString _ | JNull => true | _ => false end.

End Admin.

(* ================================================================== *)
(** ** [MultipleResult] (results/count_result.go) *)
(* ================================================================== *)

Module MultipleResults.
Import Json Results.

(** The [data] member of [multipleResultJSON]: [Documents] is a
    [json.RawMessage] (nil when absent), [NextPageState] a [*string]. *)
Record multipleResultJSON := {
  mr_Documents : option json;
  mr_NextPageState : option string
}.

Definition zero_multipleResultJSON : multipleResultJSON :=
  {| mr_Documents := None; mr_NextPageState := None |}.

Definition decode_multipleResult_data_member (r : multipleResultJSON) (k : string) (v : json)
    : multipleResultJSON * option error :=
  if key_matches "documents" k then
    let '(d, e) := decode_raw (mr_Documents r) v in
    ({| mr_Documents := d; mr_NextPageState := mr_NextPageState r |}, e)
  else if key_matches "nextPageState" k then
    let '(ps, e) := decode_string_ptr (mr_NextPageState r) v in
    ({| mr_Documents := mr_Documents r; mr_NextPageState := ps |}, e)
  else (r, None).

Definition decode_multipleResultJSON (r : multipleResultJSON) (v : json)
    : multipleResultJSON * option error :=
  decode_struct (fun r k v =>
    if key_matches "data" k then decode_struct decode_multipleResult_data_member r v
    else (r, None)) r v.

(** [MultipleResult] *)
Record MultipleResult := {
  mres_err : option error;
  mres_rawResp : string
}.

Section MultipleResult.
Variable json_parse : string -> option json.

(** [MultipleResult.Decode(v)], [decode] being the decoding of the
    documents into the caller's [v], which holds [cur]. *)
Definition MultipleResult_Decode {A} (decode : A -> json -> A * option error)
    (mr : MultipleResult) (cur : A) : A * option error :=
  match mres_err mr with
  | Some e => (cur, Some e)
  | None =>
      if (String.length (mres_rawResp mr) =? 0)%nat then (cur, Some ErrNoDocuments)
      else
        match unmarshal_e json_parse decode_multipleResultJSON zero_multipleResultJSON
                (mres_rawResp mr) with
        | (_, Some e) => (cur, Some e)
        | (r, None) =>
            match mr_Documents r with
            | Some JNull => (cur, Some ErrNoDocuments)
            | Some d => decode cur d
            | None => (cur, Some ErrSyntax)
            end
        end
  end.

(** [MultipleResult.NextPageState()] *)
Definition MultipleResult_NextPageState (mr : MultipleResult) : option string :=
  match mres_err mr with
  | Some _ => None
  | None =>
      if (String.length (mres_rawResp mr) =? 0)%nat then None
      else
        match unmarshal_e json_parse decode_multipleResultJSON zero_multipleResultJSON
                (mres_rawResp mr) with
        | (_, Some _) => None
        | (r, None) => mr_NextPageState r
        end
  end.

(** [MultipleResult.HasNextPage()] *)
Definition MultipleResult_HasNextPage (mr : MultipleResult) : bool :=
  match MultipleResult_NextPageState mr with
  | Some ps => negb (String.eqb ps EmptyString)
  | None => false
  end.

End MultipleResult.

End MultipleResults.

(* ================================================================== *)
(** ** [PrimaryKey] JSON forms (command.go) *)
(* ================================================================== *)

Module PrimaryKeys.
Import Json Results Admin.

(** [PrimaryKey]: [PartitionBy []string] and [PartitionSort
    map[string]int], [None] being a nil slice or map. *)
Record PrimaryKey := {
  PartitionBy : option (list string);
  PartitionSort : option (gmap string Z)
}.

Definition zero_PrimaryKey : PrimaryKey := {| PartitionBy := None; PartitionSort := None |}.

Definition slice_len (s : option (list string)) : nat :=
  match s with Some l => length l | None => 0 end.

Definition map_len (m : option (gmap string Z)) : nat :=
  match m with Some m => size m | None => 0 end.

(** [json.Marshal(pkAlias(p))]: [partitionBy] always ([null] for a nil
    slice), [partitionSort] only when non-empty ([omitempty]). The JSON
    value is modelled, not its text, so the order of the map's members
    (sorted by [json.Marshal]) is not. *)
Definition pk_object (p : PrimaryKey) : json :=
  JObject (("partitionBy"%string,
            match PartitionBy p with
            | None => JNull
            | Some l => JArray (map JString l)
            end) ::
           match PartitionSort p with
           | Some m =>
               if (size m =? 0)%nat then []
               else [("partitionSort"%string,
                      JObject (map (fun kv => (kv.1, JNumber kv.2)) (map_to_list m)))]
           | None => []
           end).

(** [PrimaryKey.MarshalJSON]: a single partition column without sort
    columns is a plain string. *)
Definition PK_MarshalJSON (p : PrimaryKey) : json :=
  if (slice_len (PartitionBy p) =? 1)%nat && (map_len (PartitionSort p) =? 0)%nat then
    JString (match PartitionBy p with Some (c :: _) => c | _ => EmptyString end)
  else pk_object p.

(** The elements of a JSON array into a [[]string]: element [i] is
    decoded into the slice's element [i] when it exists, else into "". *)
Fixpoint decode_string_elems (old : list string) (xs : list json)
    : list string * option error :=
  match xs with
  | [] => ([], None)
  | x :: xs' =>
      let cur := match old with c :: _ => c | [] => EmptyString end in
      let '(s, e) := decode_string_e cur x in
      let '(rest, e') := decode_string_elems (tail old) xs' in
      (s :: rest, first_err e e')
  end.

(** A [[]string] field: an array gives a non-nil slice of its length,
    [null] a nil slice. *)
Definition decode_string_slice_ptr (cur : option (list string)) (v : json)
    : option (list string) * option error :=
  match v with
  | JArray xs => let '(l, e) := decode_string_elems (default [] cur) xs in (Some l, e)
  | JNull => (None, None)
  | _ => (cur, Some ErrUnmarshalType)
  end.

(** A [map[string]int] field: an object is decoded into the map (made
    when nil), each member stored, as 0 when it is not an [int]. *)
Definition decode_int_map (cur : option (gmap string Z)) (v : json)
    : option (gmap string Z) * option error :=
  match v with
  | JObject kvs =>
      let '(m, e) := fold_left (fun acc kv =>
                        let '(m, e) := acc in
                        let '(n, e') := decode_int 0 kv.2 in
                        (<[kv.1 := n]> m, first_err e e')) kvs (default ∅ cur, None) in
      (Some m, e)
  | JNull => (None, None)
  | _ => (cur, Some ErrUnmarshalType)
  end.

Definition decode_pk_member (pk : PrimaryKey) (k : string) (v : json)
    : PrimaryKey * option error :=
  if key_matches "partitionBy" k then
    let '(l, e) := decode_string_slice_ptr (PartitionBy pk) v in
    ({| PartitionBy := l; PartitionSort := PartitionSort pk |}, e)
  else if key_matches "partitionSort" k then
    let '(m, e) := decode_int_map (PartitionSort pk) v in
    ({| PartitionBy := PartitionBy pk; PartitionSort := m |}, e)
  else (pk, None).

Section Unmarshal.
Variable json_parse : string -> option json.

(** [PrimaryKey.UnmarshalJSON(data)] on the key [p]: first as a string,
    then as the object form into a fresh [pkAlias]. *)
Definition PK_UnmarshalJSON (data : string) (p : PrimaryKey) : PrimaryKey * option error :=
  match unmarshal_e json_parse decode_string_e EmptyString data with
  | (s, None) => ({| PartitionBy := Some [s]; PartitionSort := None |}, None)
  | (_, Some _) =>
      match unmarshal_e json_parse (decode_struct decode_pk_member) zero_PrimaryKey data with
      | (pk, None) => (pk, None)
      | (_, Some e) => (p, Some e)
      end
  end.

End Unmarshal.

End PrimaryKeys.

(* ================================================================== *)
(** ** Response bodies used to exercise the decoders *)
(* ================================================================== *)

Module ResultsTestData.
Import Json Results MultipleResults PrimaryKeys.

(** A compound primary key: two partition columns, one sort column. *)
Definition compound_key : PrimaryKey :=
  {| PartitionBy := Some ["region"%string; "day"%string];
     PartitionSort := Some (<["ts"%string := -1]> ∅) |}.

(** A [json.Unmarshal] front end over a few fixed bodies, named by tags. *)
Definition test_parse (body : string) : option json :=
  if String.eqb body "count-body" then
    Some (JObject [("status"%string,
                    JObject [("count"%string, JNumber 7); ("moreData"%string, JBool false)])])
  else if String.eqb body "doc-body" then
    Some (JObject [("data"%string, JObject [("document"%string, JString "x")])])
  else if String.eqb body "page-body" then
    Some (JObject [("data"%string,
                    JObject [("documents"%string, JArray [JString "a"]);
                             ("nextPageState"%string, JNumber 3)])])
  else if String.eqb body "page2-body" then
    Some (JObject [("data"%string,
                    JObject [("documents"%string, JArray [JString "a"]);
                             ("nextPageState"%string, JString "T2")])])
  else if String.eqb body "pk-body" then Some (PK_MarshalJSON compound_key)
  else if String.eqb body "null" then Some JNull
  else if String.eqb body "devops-body" then
    Some (JObject [("message"%string, JString "bad region");
                   ("errors"%string, JArray [JString "x"; JNumber 5])])
  else None.

Definition count_result : CountResult :=
  {| cr_err := None; cr_rawResp := "count-body" |}.

Definition doc_result : SingleResult :=
  {| sr_err := None; sr_rawResp := "doc-body" |}.

Definition page_result : MultipleResult :=
  {| mres_err := None; mres_rawResp := "page-body" |}.

Definition page2_result : MultipleResult :=
  {| mres_err := None; mres_rawResp := "page2-body" |}.

Definition count_as_single : SingleResult :=
  {| sr_err := None; sr_rawResp := "count-body" |}.

End ResultsTestData.
(* ================================================================== *)
(** ** Proofs about [Merge] *)
(* ================================================================== *)

Module OptionsFacts.
Import Options.

Lemma override_assoc {A} (a b c : option A) :
  override a (override b c) = override (override a b) c.
Proof. destruct a, b; reflexivity. Qed.

Lemma override_None_r {A} (a : option A) : override a None = a.
Proof. destruct a; reflexivity. Qed.

Lemma last_defined_acc {A} (f : APIOptions -> option A) ls acc :
  fold_left (fun acc l => match l with
                          | Some layer => override (f layer) acc
                          | None => acc
                          end) ls acc
  = override (last_defined f ls) acc.
Proof.
  unfold last_defined. revert acc.
  induction ls as [|[layer|] ls IH]; intros acc; simpl.
  - reflexivity.
  - rewrite (IH (override (f layer) acc)), (IH (override (f layer) None)).
    rewrite override_None_r. apply override_assoc.
  - rewrite (IH acc), (IH None). rewrite override_None_r. reflexivity.
Qed.

Lemma last_defined_cons_Some {A} (f : APIOptions -> option A) layer ls :
  last_defined f (Some layer :: ls)
  = override (last_defined f ls) (f layer).
Proof.
  unfold last_defined at 1. simpl. rewrite override_None_r.
  apply last_defined_acc.
Qed.

Lemma last_defined_cons_None {A} (f : APIOptions -> option A) ls :
  last_defined f (None :: ls) = last_defined f ls.
Proof. reflexivity. Qed.

(** A field of the result that one loop iteration updates with the
    last-wins rule ends up with the last layer's value. *)
Lemma Merge_from_last_wins {A} (g : APIOptions -> option A)
    (f : APIOptions -> option A)
    (Hstep : forall r layer, g (merge_layer r layer) = override (f layer) (g r))
    ls r :
  g (Merge_from r ls) = override (last_defined f ls) (g r).
Proof.
  unfold Merge_from. revert r.
  induction ls as [|[layer|] ls IH]; intros r; simpl.
  - reflexivity.
  - rewrite IH, Hstep, last_defined_cons_Some. apply override_assoc.
  - rewrite IH. reflexivity.
Qed.

Lemma Merge_from_headers_some ls r :
  is_Some (Headers r) -> is_Some (Headers (Merge_from r ls)).
Proof.
  unfold Merge_from. revert r.
  induction ls as [|[layer|] ls IH]; intros r Hr; simpl; auto.
  apply IH. simpl. unfold merge_headers. destruct (Headers layer); eauto.
Qed.

Lemma Merge_from_timeout_some ls r :
  is_Some (Timeout r) -> is_Some (Timeout (Merge_from r ls)).
Proof.
  unfold Merge_from. revert r.
  induction ls as [|[layer|] ls IH]; intros r Hr; simpl; auto.
  apply IH. simpl. unfold merge_timeout. destruct (Timeout layer); eauto.
Qed.

Lemma merge_layer_header_key k r layer :
  Headers (merge_layer r layer) ≫= (.!! k)
  = override (Headers layer ≫= (.!! k)) (Headers r ≫= (.!! k)).
Proof.
  simpl. unfold merge_headers.
  destruct (Headers layer) as [lh|]; simpl; [|reflexivity].
  destruct (lh !! k) as [v|] eqn:Hk; simpl.
  - by apply lookup_union_Some_l.
  - rewrite lookup_union_r by done.
    destruct (Headers r); simpl; [reflexivity|].
    by rewrite lookup_empty.
Qed.

End OptionsFacts.

Module MergeClaims.
Import Options OptionsFacts.

(** C1: for every scalar field (Token, Keyspace, APIVersion, HTTPClient,
    Serdes, WarningHandler), the merged value is the value of the last
    non-nil layer defining the field, and otherwise the default of
    [DefaultAPIOptions]: no token, keyspace "default_keyspace", API
    version "v1", the default HTTP client, no serdes, no warning handler. *)
Theorem Merge_scalar_last_wins (layers : list (option APIOptions)) :
  Token (Merge layers) = with_default (last_defined Token layers) None /\
  Keyspace (Merge layers)
    = with_default (last_defined Keyspace layers) (Some "default_keyspace"%string) /\
  APIVersion (Merge layers)
    = with_default (last_defined APIVersion layers) (Some "v1"%string) /\
  HTTPClient_ (Merge layers)
    = with_default (last_defined HTTPClient_ layers) (Some DefaultHTTPClient) /\
  Serdes (Merge layers) = with_default (last_defined Serdes layers) None /\
  WarningHandler_ (Merge layers)
    = with_default (last_defined WarningHandler_ layers) None.
Proof.
  unfold Merge, with_default.
  repeat split;
    (erewrite Merge_from_last_wins; [reflexivity|]); reflexivity.
Qed.

Lemma merge_layer_timeout_field (sub : TimeoutOptions -> option Duration)
    (Hsub : forall lt rt,
        sub {| Request := override (Request lt) (Request rt);
               Connection := override (Connection lt) (Connection rt);
               BulkOperation := override (BulkOperation lt) (BulkOperation rt) |}
        = override (sub lt) (sub rt))
    (Hempty : sub empty_timeout = None) r layer :
  Timeout (merge_layer r layer) ≫= sub
  = override (Timeout layer ≫= sub) (Timeout r ≫= sub).
Proof.
  simpl. unfold merge_timeout.
  destruct (Timeout layer) as [lt|]; simpl; [|reflexivity].
  rewrite Hsub. destruct (Timeout r); simpl; [reflexivity|].
  rewrite Hempty. destruct (sub lt); reflexivity.
Qed.

(** C7: the merged header map is defined and maps every key to the value
    of the last layer whose map holds the key (earlier distinct keys are
    kept); the merged timeout is defined and each of its sub-fields
    (request, connection, bulk) is the value of the last layer setting
    that sub-field, the request timeout defaulting to 30s. *)
Theorem Merge_headers_timeouts (layers : list (option APIOptions)) :
  is_Some (Headers (Merge layers)) /\
  (forall k : string,
     Headers (Merge layers) ≫= (.!! k)
     = last_defined (fun l => Headers l ≫= (.!! k)) layers) /\
  is_Some (Timeout (Merge layers)) /\
  Timeout (Merge layers) ≫= Request
    = with_default (last_defined (fun l => Timeout l ≫= Request) layers)
                   (Some (30 * Second)) /\
  Timeout (Merge layers) ≫= Connection
    = last_defined (fun l => Timeout l ≫= Connection) layers /\
  Timeout (Merge layers) ≫= BulkOperation
    = last_defined (fun l => Timeout l ≫= BulkOperation) layers.
Proof.
  unfold Merge, with_default. split; [|split; [|split; [|split; [|split]]]].
  - apply Merge_from_headers_some. simpl. eauto.
  - intros k. rewrite (Merge_from_last_wins _ _ (merge_layer_header_key k)).
    simpl. rewrite lookup_empty. apply override_None_r.
  - apply Merge_from_timeout_some. simpl. eauto.
  - rewrite (Merge_from_last_wins _ _
               (merge_layer_timeout_field Request (fun _ _ => eq_refl) eq_refl)).
    reflexivity.
  - rewrite (Merge_from_last_wins _ _
               (merge_layer_timeout_field Connection (fun _ _ => eq_refl) eq_refl)).
    apply override_None_r.
  - rewrite (Merge_from_last_wins _ _
               (merge_layer_timeout_field BulkOperation (fun _ _ => eq_refl) eq_refl)).
    apply override_None_r.
Qed.

End MergeClaims.

(* ================================================================== *)
(** ** Proofs about [ExtractErrors] and [MarshalJSON] *)
(* ================================================================== *)

Module CommandClaims.
Import Json Command.

Lemma string_app_assoc (a b c : string) :
  ((a ++ b) ++ c)%string = (a ++ (b ++ c))%string.
Proof.
  induction a as [|ch a IH]; [reflexivity|].
  change (String ch ((a ++ b) ++ c) = String ch (a ++ (b ++ c)))%string.
  by rewrite IH.
Qed.

Lemma decode_apiErrs_members_no_errors fs errs :
  Forall (fun kv => key_matches "errors" kv.1 = false) fs ->
  fold_left decode_apiErrs_member fs errs = errs.
Proof.
  revert errs. induction fs as [|[k v] fs IH]; intros errs Hfs; simpl; [done|].
  inversion Hfs as [|? ? Hk Hrest]; subst. simpl in Hk.
  rewrite Hk. by apply IH.
Qed.

(** C5: below status 400 the body is returned; if the errors decoded
    from the body (the [errors] member of [apiErrs]) are non-empty, the
    error is the combined [DataAPIErrors] value holding exactly those
    records in order, unwrapping to them and rendering as their
    renderings joined by newlines; if the body is not valid JSON, has no
    [errors] member, or its errors are empty, there is no error. A body
    whose only member is [errors] holding an array gives one record per
    array element, in order. *)
Theorem ExtractErrors_ok_status (json_parse : string -> option json)
    (statusCode : Z) (body : string) (Hs : statusCode < 400) :
  let errs := unmarshal json_parse decode_apiErrs [] body in
  payload (ExtractErrors json_parse statusCode body) = body /\
  (json_parse body = None -> err (ExtractErrors json_parse statusCode body) = None) /\
  (forall fs, json_parse body = Some (JObject fs) ->
     Forall (fun kv => key_matches "errors" kv.1 = false) fs ->
     err (ExtractErrors json_parse statusCode body) = None) /\
  (errs = [] -> err (ExtractErrors json_parse statusCode body) = None) /\
  (forall e0 es, errs = e0 :: es ->
     err (ExtractErrors json_parse statusCode body)
       = Some (ErrDataAPIErrors (e0 :: es)) /\
     DataAPIErrors_Unwrap (e0 :: es) = e0 :: es /\
     Error (ErrDataAPIErrors (e0 :: es))
       = String.concat newline (map DataAPIError_Error (e0 :: es))) /\
  (forall xs, json_parse body = Some (JObject [("errors"%string, JArray xs)]) ->
     errs = map (decode_DataAPIError zero_DataAPIError) xs).
Proof.
  intros errs.
  assert (Hlt : (400 <=? statusCode) = false) by (apply Z.leb_gt; lia).
  unfold ExtractErrors. rewrite Hlt. fold errs.
  split; [|split; [|split; [|split; [|split]]]].
  - by destruct (0 <? length errs)%nat.
  - intros Hp. subst errs. unfold unmarshal. by rewrite Hp.
  - intros fs Hp Hfs. subst errs. unfold unmarshal. rewrite Hp. simpl.
    by rewrite decode_apiErrs_members_no_errors.
  - intros He. by rewrite He.
  - intros e0 es He. rewrite He. done.
  - intros xs Hp. subst errs. unfold unmarshal. rewrite Hp. reflexivity.
Qed.

(** C6: from status 400 on there is always an error: the message of the
    body decoded as a [DataAPIError] when it is non-empty, the raw body
    text otherwise; the result holds only the body and that error. *)
Theorem ExtractErrors_error_status (json_parse : string -> option json)
    (statusCode : Z) (body : string) (Hs : 400 <= statusCode) :
  let msg := Message (unmarshal json_parse decode_DataAPIError zero_DataAPIError body) in
  ExtractErrors json_parse statusCode body
  = {| payload := body;
       err := Some (ErrString (if String.eqb msg EmptyString then body else msg)) |}.
Proof.
  intros msg.
  assert (Hle : (400 <=? statusCode) = true) by (apply Z.leb_le; lia).
  unfold ExtractErrors. rewrite Hle. fold msg.
  destruct msg as [|c m]; reflexivity.
Qed.

Lemma MarshalJSON_shape (c : command) :
  MarshalJSON c
  = (if String.eqb (name c) EmptyString then marshal (cmd_payload c)
     else "{" ++ quote (name c) ++ ":" ++ marshal (cmd_payload c) ++ "}")%string.
Proof.
  unfold MarshalJSON. destruct (name c) as [|ch s]; simpl; [reflexivity|].
  unfold comma_join. simpl. rewrite !string_app_assoc. reflexivity.
Qed.

(** C8: a command with a non-empty name is written as the one-member
    object [{"<name>":<payload>}]; with an empty name the payload alone
    is written. For [insertOne] with payload [{"document": X}] this is
    [{"insertOne":{"document":X}}]. *)
Theorem MarshalJSON_envelope (c : command) :
  MarshalJSON c
  = (if String.eqb (name c) EmptyString then marshal (cmd_payload c)
     else "{" ++ quote (name c) ++ ":" ++ marshal (cmd_payload c) ++ "}")%string /\
  (forall X : json,
     MarshalJSON {| name := "insertOne"; cmd_payload := JObject [("document", X)] |}
     = ("{" ++ dquote ++ "insertOne" ++ dquote ++ ":{" ++ dquote ++ "document"
        ++ dquote ++ ":" ++ marshal X ++ "}}")%string).
Proof.
  split; [apply MarshalJSON_shape|].
  intros X. rewrite MarshalJSON_shape. simpl.
  change (marshal (JObject [("document"%string, X)]))
    with ("{" ++ (quote "document" ++ ":" ++ marshal X) ++ "}")%string.
  change (quote "insertOne") with (dquote ++ "insertOne" ++ dquote)%string.
  change (quote "document") with (dquote ++ "document" ++ dquote)%string.
  rewrite !string_app_assoc. reflexivity.
Qed.

End CommandClaims.

Module WarningClaims.
Import Json Command CommandTestData.

(** C3 (evidence): on the body of [TestCommandWarnings], which carries
    two warnings under [status.warnings] and no [errors], [ExtractErrors]
    at status 200 returns exactly the body and no error: its results have
    no warnings component, so the two warnings are neither returned nor
    passed to a handler. *)
Theorem ExtractErrors_drops_warnings (json_parse : string -> option json)
    (body : string) (Hp : json_parse body = Some warningsResponse_json) :
  length (status_warnings warningsResponse_json) = 2%nat /\
  ExtractErrors json_parse 200 body = {| payload := body; err := None |}.
Proof.
  split; [reflexivity|].
  unfold ExtractErrors, unmarshal. rewrite Hp. reflexivity.
Qed.

Lemma ExtractErrors_drops_warnings_witness :
  test_parse "warningsResponse" = Some warningsResponse_json /\
  length (status_warnings warningsResponse_json) = 2%nat /\
  ExtractErrors test_parse 200 "warningsResponse"
  = {| payload := "warningsResponse"; err := None |}.
Proof.
  split; [reflexivity|].
  apply (ExtractErrors_drops_warnings test_parse "warningsResponse").
  reflexivity.
Defined.

End WarningClaims.

Module CommandWitnesses.
Import Json Command CommandTestData CommandClaims.

Lemma ExtractErrors_ok_status_witness :
  200 < 400 /\
  err (ExtractErrors test_parse 200 "createAlreadyExistsResponse")
  = Some (ErrDataAPIErrors [already_exists_record]).
Proof.
  split; [lia|].
  destruct (ExtractErrors_ok_status test_parse 200 "createAlreadyExistsResponse")
    as (_ & _ & _ & _ & H & _); [lia|].
  exact (proj1 (H already_exists_record [] eq_refl)).
Defined.

Lemma ExtractErrors_error_status_witness :
  400 <= 503 /\
  ExtractErrors test_parse 503 "resumingResponse"
  = {| payload := "resumingResponse";
       err := Some (ErrString "Your database is resuming from hibernation and will be available in the next few minutes.") |}.
Proof.
  split; [lia|].
  etransitivity; [apply (ExtractErrors_error_status test_parse 503 "resumingResponse"); lia|].
  reflexivity.
Defined.

End CommandWitnesses.

(* ================================================================== *)
(** ** Proofs about the cursor *)
(* ================================================================== *)

Module CursorClaims.
Import Cursor.

Lemma Next_closed (c : Cursor) :
  state c = CursorStateClosed ->
  Next c = (false, set_err c ErrCursorClosed, []).
Proof. intros H. unfold Next. by rewrite H. Qed.

Lemma step_closed (op : Op) (c : Cursor) :
  state c = CursorStateClosed ->
  exists c', step op c = (closed_outcome op, c', []) /\
             state c' = CursorStateClosed /\
             err c' = (match op with OpNext => Some ErrCursorClosed | _ => err c end).
Proof.
  intros H. destruct op; simpl.
  - rewrite Next_closed by done. eexists; split; [reflexivity|]. by split.
  - unfold Decode. rewrite H. eexists; split; [reflexivity|]. by split.
  - unfold All. rewrite H. eexists; split; [reflexivity|]. by split.
  - unfold Close. rewrite H. eexists; split; [reflexivity|]. by split.
Qed.

Lemma run_closed_err (ops : list Op) (c : Cursor) :
  state c = CursorStateClosed -> err c = Some ErrCursorClosed ->
  err (run ops c).1.2 = Some ErrCursorClosed.
Proof.
  revert c. induction ops as [|op ops IH]; intros c H He; simpl; [done|].
  destruct (step_closed op c H) as (c1 & Hstep & Hst1 & Herr1).
  rewrite Hstep. destruct (run ops c1) as [[os c2] l2] eqn:Hr. simpl.
  replace c2 with (run ops c1).1.2 by (rewrite Hr; reflexivity). apply IH; [done|].
  rewrite Herr1. by destruct op.
Qed.

Lemma run_closed (ops : list Op) (c : Cursor) :
  state c = CursorStateClosed ->
  run ops c = (map closed_outcome ops, (run ops c).1.2, []) /\
  state (run ops c).1.2 = CursorStateClosed /\
  (OpNext ∈ ops -> err (run ops c).1.2 = Some ErrCursorClosed).
Proof.
  revert c. induction ops as [|op ops IH]; intros c H; simpl.
  - split; [reflexivity|]. split; [done|]. intros Hin. by apply elem_of_nil in Hin.
  - destruct (step_closed op c H) as (c1 & Hstep & Hst1 & Herr1).
    rewrite Hstep. destruct (IH c1 Hst1) as (Hrun & Hst2 & Herr2).
    rewrite Hrun. simpl. split; [reflexivity|]. split; [done|].
    intros Hin. apply elem_of_cons in Hin as [Heq|Hin]; [subst op|by apply Herr2].
    apply run_closed_err; [done|]. by rewrite Herr1.
Qed.

(** C9: [Close] returns no error from any state and leaves the cursor
    Closed; closing again returns no error and changes nothing; from then
    on every sequence of operations keeps the cursor Closed, calls no
    fetcher, every Next answers false, every Decode and All answers
    "cursor is closed", and once a Next has run the recorded error is
    "cursor is closed". *)
Theorem Close_absorbing (c : Cursor) :
  let '(e, c1) := Close c in
  e = None /\ state c1 = CursorStateClosed /\ Close c1 = (None, c1) /\
  (forall ops : list Op,
     (run ops c1).1.1 = map closed_outcome ops /\
     (run ops c1).2 = [] /\
     state (run ops c1).1.2 = CursorStateClosed /\
     (OpNext ∈ ops -> Err (run ops c1).1.2 = Some ErrCursorClosed)).
Proof.
  assert (Hc : (Close c).1 = None /\ state (Close c).2 = CursorStateClosed).
  { unfold Close. destruct c as [f st b p n e0 i]; simpl. by destruct st. }
  destruct (Close c) as [e c1] eqn:HC. simpl in Hc. destruct Hc as [He Hst].
  split; [done|]. split; [done|]. split.
  - unfold Close. by rewrite Hst.
  - intros ops. destruct (run_closed ops c1 Hst) as (Hrun & Hst2 & Herr).
    rewrite Hrun. simpl. split; [done|]. split; [done|]. split.
    + by rewrite Hrun in Hst2.
    + intros Hin. unfold Err. specialize (Herr Hin). by rewrite Hrun in Herr.
Qed.

(** C10: a cursor built by [NewWithInitialData] from no documents and a
    nil or empty next-page token starts Exhausted; any number of Next
    calls then all answer false, leave the cursor unchanged with no
    error, and never call the fetcher. *)
Theorem NewWithInitialData_empty_exhausted (nextPageState0 : option string)
    (f : PageFetcher)
    (Hp : nextPageState0 = None \/ nextPageState0 = Some EmptyString) :
  let c := NewWithInitialData [] nextPageState0 f in
  state c = CursorStateExhausted /\
  forall n : nat,
    run (replicate n OpNext) c = (replicate n (NextResult false), c, []) /\
    Err c = None.
Proof.
  intros c.
  assert (Hst : state c = CursorStateExhausted).
  { subst c. unfold NewWithInitialData. simpl.
    by destruct Hp as [-> | ->]. }
  split; [done|]. intros n. split; [|reflexivity].
  induction n as [|n IH]; simpl; [reflexivity|].
  unfold Next. rewrite Hst. by rewrite IH.
Qed.

(** C2: over a fetcher that gives page A = [a1; a2] with token T1, for
    T1 page B = [b1; b2] with token T2, and for T2 page C = [c1] with no
    token (T1 and T2 being real, non-empty tokens), the loop calling Next
    until it answers false (given room for at least six calls) sees
    exactly the five documents a1 a2 b1 b2 c1 in order through Current,
    calls the fetcher exactly three times (first page, T1, T2), and ends
    Exhausted with no error; a further Next answers false. *)
Theorem New_three_pages (f : PageFetcher) (a1 a2 b1 b2 c1 T1 T2 : string)
    (HT1 : T1 <> EmptyString) (HT2 : T2 <> EmptyString)
    (HA : f None = ([a1; a2], Some T1, None))
    (HB : f (Some T1) = ([b1; b2], Some T2, None))
    (HC : f (Some T2) = ([c1], None, None))
    (fuel : nat) (Hfuel : (6 <= fuel)%nat) :
  let '(docs, c', fetches) := drain fuel (New f) in
  docs = [Some a1; Some a2; Some b1; Some b2; Some c1] /\
  fetches = [None; Some T1; Some T2] /\
  state c' = CursorStateExhausted /\ Err c' = None /\
  (Next c').1.1 = false.
Proof.
  assert (E1 : String.eqb T1 EmptyString = false) by (by apply String.eqb_neq).
  assert (E2 : String.eqb T2 EmptyString = false) by (by apply String.eqb_neq).
  destruct fuel as [|[|[|[|[|[|fuel]]]]]]; try lia.
  cbn [drain]. unfold Next, Next_active, fetchPageLocked, call_fetcher, New.
  simpl. rewrite HA. simpl. rewrite E1. simpl. rewrite HB. simpl.
  rewrite E2. simpl. rewrite HC. simpl.
  destruct fuel; simpl; repeat split; reflexivity.
Qed.

(** C4 (evidence): [NewWithError] leaves [position] at Go's zero value 0
    over an empty buffer, outside [-1, len(buffer) - 1], in a state that
    is not Closed; the next Next, Decode or All keeps it there. *)
Theorem NewWithError_position_out_of_range (e : option error) :
  let c := NewWithError e in
  state c <> CursorStateClosed /\ position c = 0 /\ length (buffer c) = 0%nat /\
  ~ position_in_range c /\
  position (Next c).1.2 = 0 /\ buffer (Next c).1.2 = [] /\
  ~ position_in_range (Next c).1.2.
Proof.
  simpl. unfold position_in_range. simpl.
  repeat split; try discriminate; lia.
Qed.

End CursorClaims.

Module CursorInvariant.
Import Cursor.

Lemma fetchPageLocked_in_range (c c' : Cursor) p :
  fetchPageLocked c p = inl c' -> position_in_range c'.
Proof.
  unfold fetchPageLocked, position_in_range.
  destruct (call_fetcher c p) as [[docs nx] [e|]]; intros H; [discriminate|].
  injection H as <-. simpl. lia.
Qed.

Lemma Next_active_in_range (c : Cursor) log :
  position_in_range c -> position_in_range (Next_active c log).1.2.
Proof.
  unfold Next_active, position_in_range. simpl. intros Hc.
  destruct (position c + 1 <? Z.of_nat (length (buffer c))) eqn:Hlt.
  - apply Z.ltb_lt in Hlt. simpl. lia.
  - destruct (page_state_empty (nextPageState c)); [simpl; lia|].
    destruct (fetchPageLocked (set_state c CursorStateActive) (nextPageState c))
      as [c'|e] eqn:Hf; simpl; [|lia].
    apply fetchPageLocked_in_range in Hf. unfold position_in_range in Hf.
    destruct (length (buffer c') =? 0)%nat eqn:Hl; simpl; [lia|].
    apply Nat.eqb_neq in Hl. lia.
Qed.

Lemma Next_in_range (c : Cursor) :
  position_in_range c -> position_in_range (Next c).1.2.
Proof.
  intros Hc. unfold Next.
  destruct (state c); try done;
    (destruct (negb (initialized c)); [|by apply Next_active_in_range]);
    (destruct (fetchPageLocked c None) as [c'|e] eqn:Hf; [|done]);
    apply Next_active_in_range; apply fetchPageLocked_in_range in Hf; done.
Qed.

Lemma All_pages_in_range fuel (c : Cursor) docs log :
  position_in_range c -> position_in_range (All_pages fuel c docs log).1.2.
Proof.
  revert c docs log. induction fuel as [|fuel IH]; intros c docs log Hc; simpl;
    destruct (page_state_empty (nextPageState c)); try done.
  destruct (fetchPageLocked c (nextPageState c)) as [c'|e] eqn:Hf; [|done].
  apply IH. by eapply fetchPageLocked_in_range.
Qed.

Lemma All_in_range fuel u (c : Cursor) :
  position_in_range c -> position_in_range (All fuel u c).1.2.
Proof.
  intros Hc. unfold All.
  destruct (CursorState_eqb (state c) CursorStateClosed); [done|].
  destruct (negb (initialized c)).
  - destruct (fetchPageLocked c None) as [c'|e] eqn:Hf; simpl; [|done].
    apply fetchPageLocked_in_range in Hf.
    match goal with |- context [All_pages ?n ?c1 ?d ?l] =>
      pose proof (All_pages_in_range n c1 d l Hf) as Hp;
      destruct (All_pages n c1 d l) as [[[ds|e] c2] l2] end; done.
  - simpl.
    match goal with |- context [All_pages ?n ?c1 ?d ?l] =>
      pose proof (All_pages_in_range n c1 d l Hc) as Hp;
      destruct (All_pages n c1 d l) as [[[ds|e] c2] l2] end; done.
Qed.

(** The constructors other than [NewWithError] establish the position
    invariant, and Next, Decode and All preserve it. *)
Lemma position_invariant_except_NewWithError :
  (forall f, position_in_range (New f)) /\
  (forall docs p f, position_in_range (NewWithInitialData docs p f)) /\
  (forall op c, op <> OpClose -> position_in_range c ->
     position_in_range (step op c).1.2).
Proof.
  split; [intros f; unfold position_in_range; simpl; lia|].
  split; [intros docs p f; unfold position_in_range; simpl; lia|].
  intros op c Hop Hc. destruct op; simpl.
  - pose proof (Next_in_range c Hc) as H. by destruct (Next c) as [[b c'] l].
  - done.
  - pose proof (All_in_range fuel unmarshal c Hc) as H.
    by destruct (All fuel unmarshal c) as [[e c'] l].
  - done.
Qed.

End CursorInvariant.

Module CursorWitnesses.
Import Cursor CursorClaims.

Lemma NewWithInitialData_empty_exhausted_witness :
  ((None : option string) = None \/ (None : option string) = Some EmptyString) /\
  state (NewWithInitialData [] None three_page_fetcher) = CursorStateExhausted /\
  run (replicate 3 OpNext) (NewWithInitialData [] None three_page_fetcher)
  = (replicate 3 (NextResult false), NewWithInitialData [] None three_page_fetcher, []).
Proof.
  split; [left; reflexivity|].
  pose proof (NewWithInitialData_empty_exhausted None three_page_fetcher
                (or_introl eq_refl)) as H.
  simpl in H. destruct H as [Hst Hrun].
  split; [exact Hst|]. exact (proj1 (Hrun 3%nat)).
Defined.

Lemma New_three_pages_witness :
  let '(docs, c', fetches) := drain 6 (New three_page_fetcher) in
  docs = [Some "a1"; Some "a2"; Some "b1"; Some "b2"; Some "c1"]%string /\
  fetches = [None; Some "T1"; Some "T2"]%string /\
  state c' = CursorStateExhausted /\ Err c' = None /\
  (Next c').1.1 = false.
Proof.
  apply (New_three_pages three_page_fetcher "a1" "a2" "b1" "b2" "c1" "T1" "T2");
    try discriminate; try reflexivity; lia.
Defined.

End CursorWitnesses.

(* ================================================================== *)
(** ** Proofs about [NewAPIOptions] and the option hierarchy *)
(* ================================================================== *)

Module OptionsExtFacts.
Import Options OptionsFacts OptionsExt.

Lemma last_set_acc {A} (f : APIOption -> option A) opts acc :
  fold_left (fun acc opt => override (f opt) acc) opts acc
  = override (last_set f opts) acc.
Proof.
  unfold last_set. revert acc.
  induction opts as [|opt opts IH]; intros acc; simpl; [reflexivity|].
  rewrite (IH (override (f opt) acc)), (IH (override (f opt) None)).
  rewrite override_None_r. apply override_assoc.
Qed.

Lemma last_set_app {A} (f : APIOption -> option A) a b :
  last_set f (a ++ b) = override (last_set f b) (last_set f a).
Proof.
  unfold last_set at 1. rewrite fold_left_app. apply last_set_acc.
Qed.

(** A field that every option updates with the last-wins rule. *)
Lemma NewAPIOptions_from_last_set {A} (g : APIOptions -> option A)
    (f : APIOption -> option A)
    (Hstep : forall opt o, g (apply_opt opt o) = override (f opt) (g o))
    opts o :
  g (fold_left (fun o opt => apply_opt opt o) opts o)
  = override (last_set f opts) (g o).
Proof.
  revert o. induction opts as [|opt opts IH]; intros o; simpl; [reflexivity|].
  rewrite IH, Hstep. unfold last_set at 2. simpl.
  rewrite (last_set_acc f opts (override (f opt) None)), override_None_r.
  apply override_assoc.
Qed.

Lemma apply_opt_header_key k opt o :
  Headers (apply_opt opt o) ≫= (.!! k)
  = override (opt_header k opt) (Headers o ≫= (.!! k)).
Proof.
  destruct opt as [| | | |k' v|hs| | | |]; simpl; try reflexivity.
  - destruct (String.eqb_spec k k') as [->|Hne].
    + simpl. by rewrite lookup_insert_eq.
    + simpl. rewrite lookup_insert_ne by congruence.
      destruct (Headers o); simpl; [reflexivity|]. by rewrite lookup_empty.
  - destruct (headers_or_empty hs !! k) as [v|] eqn:Hk; simpl.
    + by apply lookup_union_Some_l.
    + rewrite lookup_union_r by done.
      destruct (Headers o); simpl; [reflexivity|]. by rewrite lookup_empty.
Qed.

Lemma apply_opt_request opt o :
  Timeout (apply_opt opt o) ≫= Request
  = override (opt_request_timeout opt) (Timeout o ≫= Request).
Proof.
  destruct opt; simpl; try reflexivity;
    destruct (Timeout o); reflexivity.
Qed.

Lemma NewAPIOptions_headers_some_from opts o :
  is_Some (Headers o) ->
  is_Some (Headers (fold_left (fun o opt => apply_opt opt o) opts o)).
Proof.
  revert o. induction opts as [|opt opts IH]; intros o Ho; simpl; [done|].
  apply IH. destruct opt; simpl; eauto.
Qed.

Lemma NewAPIOptions_keyspace opts :
  Keyspace (NewAPIOptions opts) = last_set opt_keyspace opts.
Proof.
  unfold NewAPIOptions. rewrite (NewAPIOptions_from_last_set _ opt_keyspace).
  - apply override_None_r.
  - intros opt o. destruct opt; reflexivity.
Qed.

Lemma NewAPIOptions_token opts :
  Token (NewAPIOptions opts) = last_set opt_token opts.
Proof.
  unfold NewAPIOptions. rewrite (NewAPIOptions_from_last_set _ opt_token).
  - apply override_None_r.
  - intros opt o. destruct opt; reflexivity.
Qed.

Lemma NewAPIOptions_api_version opts :
  APIVersion (NewAPIOptions opts) = last_set opt_api_version opts.
Proof.
  unfold NewAPIOptions. rewrite (NewAPIOptions_from_last_set _ opt_api_version).
  - apply override_None_r.
  - intros opt o. destruct opt; reflexivity.
Qed.

Lemma NewAPIOptions_request opts :
  Timeout (NewAPIOptions opts) ≫= Request = last_set opt_request_timeout opts.
Proof.
  unfold NewAPIOptions.
  rewrite (NewAPIOptions_from_last_set _ _ apply_opt_request).
  apply override_None_r.
Qed.

Lemma NewAPIOptions_header opts k :
  Headers (NewAPIOptions opts) ≫= (.!! k) = last_set (opt_header k) opts.
Proof.
  unfold NewAPIOptions.
  rewrite (NewAPIOptions_from_last_set _ _ (apply_opt_header_key k)).
  simpl. rewrite lookup_empty. apply override_None_r.
Qed.

End OptionsExtFacts.

Module RouteFacts.
Import Options OptionsFacts MergeClaims OptionsExt OptionsExtFacts Route.

Lemma last_defined_four {A} (g : APIOptions -> option A) a b c x :
  last_defined g [Some a; Some b; Some c; x]
  = override (match x with Some d => g d | None => None end)
             (override (g c) (override (g b) (g a))).
Proof.
  unfold last_defined. simpl. rewrite override_None_r.
  destruct x; reflexivity.
Qed.

(** The options a collection or table command resolves are those of the
    concatenated option lists, field by field. *)
Lemma resolve_field {A} (g : APIOptions -> option A) (f : APIOption -> option A)
    (Hmerge : forall r layer, g (merge_layer r layer) = override (g layer) (g r))
    (Hnew : forall opts, g (NewAPIOptions opts) = last_set f opts)
    co dbo ro cmo ep rname cname :
  g (resolveOptions (resource_newCmd (Collection (Database (NewClient co) ep dbo) rname ro)
                                     cname cmo))
  = override (last_set f (co ++ dbo ++ ro ++ cmo)) (g DefaultAPIOptions).
Proof.
  unfold resolveOptions, resource_newCmd, newCmdWithOptions, Collection,
    Database, NewClient; simpl.
  unfold Merge. rewrite (Merge_from_last_wins g g Hmerge).
  rewrite last_defined_four, !Hnew, !last_set_app.
  destruct cmo as [|opt cmo]; simpl.
  - rewrite !override_assoc. reflexivity.
  - rewrite Hnew, !override_assoc. reflexivity.
Qed.

Lemma merge_layer_keyspace r layer :
  Keyspace (merge_layer r layer) = override (Keyspace layer) (Keyspace r).
Proof. reflexivity. Qed.

Lemma merge_layer_token r layer :
  Token (merge_layer r layer) = override (Token layer) (Token r).
Proof. reflexivity. Qed.

Lemma merge_layer_api_version r layer :
  APIVersion (merge_layer r layer) = override (APIVersion layer) (APIVersion r).
Proof. reflexivity. Qed.

Lemma merge_layer_request r layer :
  Timeout (merge_layer r layer) ≫= Request
  = override (Timeout layer ≫= Request) (Timeout r ≫= Request).
Proof. exact (merge_layer_timeout_field Request (fun _ _ => eq_refl) eq_refl r layer). Qed.

Lemma GetKeyspace_override v :
  GetKeyspace (Some (set_Keyspace DefaultAPIOptions (override v (Some "default_keyspace"%string))))
  = default "default_keyspace"%string v.
Proof. destruct v; reflexivity. Qed.

Lemma GetRequestTimeout_Some o :
  GetRequestTimeout (Some o) = default (30 * Second) (Timeout o ≫= Request).
Proof. simpl. destruct (Timeout o) as [[[d|] ? ?]|]; reflexivity. Qed.

Lemma resolve_keyspace co dbo ro cmo ep rname cname :
  let c := resource_newCmd (Collection (Database (NewClient co) ep dbo) rname ro) cname cmo in
  Keyspace_ c = default "default_keyspace"%string (last_set opt_keyspace (co ++ dbo ++ ro ++ cmo)).
Proof.
  intros c.
  pose proof (resolve_field Keyspace opt_keyspace merge_layer_keyspace
                NewAPIOptions_keyspace co dbo ro cmo ep rname cname) as H.
  fold c in H. unfold Keyspace_, GetKeyspace.
  replace (0 <? String.length (keyspace c))%nat with false by reflexivity.
  rewrite H. simpl. destruct (last_set _ _); reflexivity.
Qed.

Lemma resolve_api_version co dbo ro cmo ep rname cname :
  let c := resource_newCmd (Collection (Database (NewClient co) ep dbo) rname ro) cname cmo in
  ApiVersion c = default "v1"%string (last_set opt_api_version (co ++ dbo ++ ro ++ cmo)).
Proof.
  intros c.
  pose proof (resolve_field APIVersion opt_api_version merge_layer_api_version
                NewAPIOptions_api_version co dbo ro cmo ep rname cname) as H.
  fold c in H. unfold ApiVersion, GetAPIVersion.
  replace (0 <? String.length (apiVersion c))%nat with false by reflexivity.
  rewrite H. simpl. destruct (last_set _ _); reflexivity.
Qed.

End RouteFacts.

Module OptionsExtras.
Import Options OptionsFacts MergeClaims OptionsExt OptionsExtFacts Route RouteFacts.

(** [NewAPIOptions] never returns a nil header map, whatever options it
    runs. The token, keyspace, API version, request timeout and each
    header come from the last option that sets them, and stay unset when
    no option does. [WithTimeout] sets the request timeout, and
    [WithHeaders] sets every key of its map. *)
Theorem NewAPIOptions_last_set (opts : list APIOption) :
  is_Some (Headers (NewAPIOptions opts)) /\
  Token (NewAPIOptions opts) = last_set opt_token opts /\
  Keyspace (NewAPIOptions opts) = last_set opt_keyspace opts /\
  APIVersion (NewAPIOptions opts) = last_set opt_api_version opts /\
  Timeout (NewAPIOptions opts) ≫= Request = last_set opt_request_timeout opts /\
  (forall k, Headers (NewAPIOptions opts) ≫= (.!! k) = last_set (opt_header k) opts).
Proof.
  split; [|split; [|split; [|split; [|split]]]].
  - apply NewAPIOptions_headers_some_from. simpl. eauto.
  - apply NewAPIOptions_token.
  - apply NewAPIOptions_keyspace.
  - apply NewAPIOptions_api_version.
  - apply NewAPIOptions_request.
  - intros k. apply NewAPIOptions_header.
Qed.

(** A command built on a collection or table resolves its options as if
    the option lists of the client, the database, the resource and the
    command were concatenated in that order. This holds for the keyspace,
    the API version, the token, the request timeout and every header.
    Each one is the value of the last option setting it, or otherwise the
    default: keyspace "default_keyspace", version "v1", an empty token
    and a 30s request timeout. A [WithKeyspace("")] at any level
    therefore gives an empty keyspace, not the default. *)
Theorem resource_command_resolution (co dbo ro cmo : list APIOption)
    (ep rname cname k : string) :
  let c := resource_newCmd (Collection (Database (NewClient co) ep dbo) rname ro) cname cmo in
  let all := co ++ dbo ++ ro ++ cmo in
  Keyspace_ c = default "default_keyspace"%string (last_set opt_keyspace all) /\
  ApiVersion c = default "v1"%string (last_set opt_api_version all) /\
  GetToken (Some (resolveOptions c)) = default EmptyString (last_set opt_token all) /\
  GetRequestTimeout (Some (resolveOptions c))
    = default (30 * Second) (last_set opt_request_timeout all) /\
  Headers (resolveOptions c) ≫= (.!! k) = last_set (opt_header k) all.
Proof.
  intros c all. split; [|split; [|split; [|split]]].
  - apply resolve_keyspace.
  - apply resolve_api_version.
  - unfold GetToken. subst c all.
    rewrite (resolve_field Token opt_token merge_layer_token NewAPIOptions_token).
    simpl. destruct (last_set _ _); reflexivity.
  - pose proof (resolve_field (fun o => Timeout o ≫= Request) opt_request_timeout
                  merge_layer_request NewAPIOptions_request co dbo ro cmo ep rname cname)
      as H.
    fold c in H. fold all in H.
    rewrite GetRequestTimeout_Some, H. destruct (last_set _ all); reflexivity.
  - subst c all.
    rewrite (resolve_field (fun o => Headers o ≫= (.!! k)) (opt_header k)
               (merge_layer_header_key k) (fun opts => NewAPIOptions_header opts k)).
    simpl. rewrite lookup_empty. apply override_None_r.
Qed.

(** The URL of a command built on a collection or table is an error
    "empty API endpoint" when the database endpoint is empty. Otherwise
    it is the endpoint joined with "/api/json", the resolved API
    version, the resolved keyspace and the resource name. *)
Theorem resource_command_url (JoinPath : string -> list string -> string + string)
    (co dbo ro cmo : list APIOption) (ep rname cname : string) :
  let c := resource_newCmd (Collection (Database (NewClient co) ep dbo) rname ro) cname cmo in
  let all := co ++ dbo ++ ro ++ cmo in
  url JoinPath c
  = if (String.length ep =? 0)%nat then inr "empty API endpoint"%string
    else JoinPath ep ["/api/json"%string;
                      default "v1"%string (last_set opt_api_version all);
                      default "default_keyspace"%string (last_set opt_keyspace all);
                      rname].
Proof.
  intros c all.
  pose proof (resolve_keyspace co dbo ro cmo ep rname cname) as Hk.
  pose proof (resolve_api_version co dbo ro cmo ep rname cname) as Hv.
  fold c in Hk, Hv. fold all in Hk, Hv.
  unfold url. replace (db c) with (Some (Database (NewClient co) ep dbo)) by reflexivity.
  simpl endpoint. rewrite Hk, Hv. reflexivity.
Qed.

End OptionsExtras.

(* ================================================================== *)
(** ** Further properties of the cursor *)
(* ================================================================== *)

Module CursorFacts.
Import Cursor CursorExt.

Lemma fetchPageLocked_err (c c' : Cursor) p :
  fetchPageLocked c p = inl c' -> err c' = err c.
Proof.
  unfold fetchPageLocked.
  destruct (call_fetcher c p) as [[docs nx] [e|]]; intros H; [discriminate|].
  by injection H as <-.
Qed.

Lemma fetchPageLocked_fetcher (c c' : Cursor) p :
  fetchPageLocked c p = inl c' -> fetcher c' = fetcher c.
Proof.
  unfold fetchPageLocked.
  destruct (call_fetcher c p) as [[docs nx] [e|]]; intros H; [discriminate|].
  by injection H as <-.
Qed.

Lemma Next_active_has_err (c : Cursor) log :
  has_err c -> has_err (Next_active c log).1.2.
Proof.
  unfold Next_active, has_err. intros Hc. simpl.
  destruct (position c + 1 <? Z.of_nat (length (buffer c))); [done|].
  destruct (page_state_empty (nextPageState c)); [done|].
  destruct (fetchPageLocked (set_state c CursorStateActive) (nextPageState c))
    as [c'|e] eqn:Hf; simpl; [|eauto].
  apply fetchPageLocked_err in Hf. simpl in Hf.
  destruct (length (buffer c') =? 0)%nat; simpl; by rewrite Hf.
Qed.

Lemma Next_has_err (c : Cursor) : has_err c -> has_err (Next c).1.2.
Proof.
  intros Hc. unfold Next.
  destruct (state c); try (simpl; unfold has_err; simpl; eauto; done);
    (destruct (negb (initialized c)); [|by apply Next_active_has_err]);
    (destruct (fetchPageLocked c None) as [c'|e] eqn:Hf; [|simpl; unfold has_err; eauto]);
    apply Next_active_has_err; unfold has_err; simpl;
    apply fetchPageLocked_err in Hf; by rewrite Hf.
Qed.

Lemma All_pages_has_err fuel (c : Cursor) docs log :
  has_err c -> has_err (All_pages fuel c docs log).1.2.
Proof.
  revert c docs log. induction fuel as [|fuel IH]; intros c docs log Hc; simpl;
    destruct (page_state_empty (nextPageState c)); try done.
  destruct (fetchPageLocked c (nextPageState c)) as [c'|e] eqn:Hf;
    [|unfold has_err; simpl; eauto].
  apply IH. unfold has_err. apply fetchPageLocked_err in Hf. by rewrite Hf.
Qed.

Lemma All_has_err fuel u (c : Cursor) : has_err c -> has_err (All fuel u c).1.2.
Proof.
  intros Hc. unfold All.
  destruct (CursorState_eqb (state c) CursorStateClosed); [done|].
  destruct (negb (initialized c)).
  - destruct (fetchPageLocked c None) as [c'|e] eqn:Hf; simpl;
      [|unfold has_err; simpl; eauto].
    assert (Hc' : has_err (set_initialized c')).
    { unfold has_err. simpl. apply fetchPageLocked_err in Hf. by rewrite Hf. }
    match goal with |- context [All_pages ?n ?c1 ?d ?l] =>
      pose proof (All_pages_has_err n c1 d l Hc') as Hp;
      destruct (All_pages n c1 d l) as [[[ds|e] c2] l2] end; done.
  - simpl.
    match goal with |- context [All_pages ?n ?c1 ?d ?l] =>
      pose proof (All_pages_has_err n c1 d l Hc) as Hp;
      destruct (All_pages n c1 d l) as [[[ds|e] c2] l2] end; done.
Qed.

Lemma step_has_err op (c : Cursor) : has_err c -> has_err (step op c).1.2.
Proof.
  intros Hc. destruct op; simpl.
  - pose proof (Next_has_err c Hc). by destruct (Next c) as [[b c'] l].
  - done.
  - pose proof (All_has_err fuel unmarshal c Hc).
    by destruct (All fuel unmarshal c) as [[e c'] l].
  - unfold Close. by destruct (CursorState_eqb (state c) CursorStateClosed).
Qed.

Lemma All_pages_log fuel (c : Cursor) docs log :
  exists rest, (All_pages fuel c docs log).2 = log ++ rest.
Proof.
  revert c docs log. induction fuel as [|fuel IH]; intros c docs log; simpl;
    destruct (page_state_empty (nextPageState c)); try (exists []; by rewrite app_nil_r).
  destruct (fetchPageLocked c (nextPageState c)) as [c'|e]; simpl; [|by eexists].
  destruct (IH c' (docs ++ buffer c') (log ++ [nextPageState c])) as [rest Hr].
  rewrite Hr, <- app_assoc. by eexists.
Qed.

Lemma RemainingBatchLength_in_range (c : Cursor) :
  position_in_range c ->
  RemainingBatchLength c = Z.of_nat (length (buffer c)) - (position c + 1).
Proof.
  unfold position_in_range, RemainingBatchLength. intros Hr.
  destruct (position c <? 0) eqn:Hp.
  - apply Z.ltb_lt in Hp. lia.
  - apply Z.ltb_ge in Hp.
    destruct (Z.of_nat (length (buffer c)) - position c - 1 <? 0) eqn:Hn.
    + apply Z.ltb_lt in Hn. lia.
    + lia.
Qed.

End CursorFacts.

Module CursorExtras.
Import Cursor CursorExt CursorFacts CursorInvariant.

(** No operation clears a recorded error. Once a cursor holds an error,
    every sequence of Next, Decode, All and Close calls leaves [Err]
    non-nil, even when later Next calls return documents again. *)
Theorem Err_never_cleared (ops : list Op) (c : Cursor) (H : is_Some (Err c)) :
  is_Some (Err (run ops c).1.2).
Proof.
  revert c H. induction ops as [|op ops IH]; intros c H; simpl; [done|].
  pose proof (step_has_err op c H) as H1.
  destruct (step op c) as [[o c1] l1]. simpl in H1.
  specialize (IH c1 H1). destruct (run ops c1) as [[os c2] l2]. exact IH.
Qed.

(** While documents remain in the buffer, Next returns true without
    calling the fetcher. It advances the position by one and makes the
    next buffered document current. [RemainingBatchLength] drops by one. *)
Theorem Next_within_buffer (c : Cursor)
    (Hs : state c = CursorStateIdle \/ state c = CursorStateActive)
    (Hi : initialized c = true)
    (Hp : -1 <= position c /\ position c + 1 < Z.of_nat (length (buffer c))) :
  let '(b, c', log) := Next c in
  b = true /\ log = [] /\ state c' = CursorStateActive /\
  position c' = position c + 1 /\ buffer c' = buffer c /\
  RemainingBatchLength c' = RemainingBatchLength c - 1 /\
  Current c' = nth_error (buffer c) (Z.to_nat (position c + 1)).
Proof.
  destruct c as [f st buf pos nps e0 ini]; simpl in *. subst ini.
  assert (Hlt : (pos + 1 <? Z.of_nat (length buf)) = true) by (apply Z.ltb_lt; lia).
  assert (Hn : Next {| fetcher := f; state := st; buffer := buf; position := pos;
                       nextPageState := nps; err := e0; initialized := true |}
               = (true, {| fetcher := f; state := CursorStateActive; buffer := buf;
                           position := pos + 1; nextPageState := nps; err := e0;
                           initialized := true |}, [])).
  { unfold Next. destruct Hs as [->| ->]; simpl; unfold Next_active; simpl;
      by rewrite Hlt. }
  rewrite Hn. split; [done|]. split; [done|]. split; [done|]. split; [done|].
  split; [done|]. split.
  - rewrite !RemainingBatchLength_in_range by (unfold position_in_range; simpl; lia).
    simpl. lia.
  - unfold Current. simpl.
    replace ((pos + 1 <? 0) || (Z.of_nat (length buf) <=? pos + 1)) with false; [done|].
    symmetry. apply orb_false_iff. split; [apply Z.ltb_ge|apply Z.leb_gt]; lia.
Qed.

(** A failed fetch of the first page leaves the cursor uninitialised and
    Idle, with the error recorded. The next Next calls the fetcher for
    the first page again. *)
Theorem Next_first_page_error (f : PageFetcher) (e : error)
    (docs : list RawMessage) (nxt : option string)
    (Hf : f None = (docs, nxt, Some e)) :
  let '(b, c', log) := Next (New f) in
  b = false /\ log = [None] /\ Err c' = Some e /\ initialized c' = false /\
  state c' = CursorStateIdle /\ (Next c').2 = [None].
Proof.
  unfold Next at 1. simpl. unfold fetchPageLocked, call_fetcher. simpl.
  rewrite Hf. simpl. repeat split.
  unfold Next, fetchPageLocked, call_fetcher. simpl. by rewrite Hf.
Qed.

(** A failed fetch of a later page returns false and records the error.
    The cursor stays Active with its buffer, position and next-page state
    unchanged, and [HasNextPage] stays true. The next Next asks the
    fetcher for the same page again. *)
Theorem Next_page_error_keeps_page (c : Cursor) (t : string) (e : error)
    (docs : list RawMessage) (nxt : option string)
    (Hs : state c = CursorStateIdle \/ state c = CursorStateActive)
    (Hi : initialized c = true)
    (Hp : Z.of_nat (length (buffer c)) <= position c + 1)
    (Ht : nextPageState c = Some t) (Hne : t <> EmptyString)
    (Hf : call_fetcher c (Some t) = (docs, nxt, Some e)) :
  let '(b, c', log) := Next c in
  b = false /\ log = [Some t] /\ Err c' = Some e /\ state c' = CursorStateActive /\
  buffer c' = buffer c /\ position c' = position c /\ nextPageState c' = Some t /\
  HasNextPage c' = true /\ (Next c').2 = [Some t].
Proof.
  destruct c as [fo st buf pos nps e0 ini]; simpl in *. subst ini nps.
  assert (Hge : (pos + 1 <? Z.of_nat (length buf)) = false) by (apply Z.ltb_ge; lia).
  assert (Ht' : String.eqb t EmptyString = false) by (by apply String.eqb_neq).
  unfold call_fetcher in Hf. simpl in Hf.
  assert (Hn : forall st' e1, st' = CursorStateIdle \/ st' = CursorStateActive ->
     Next {| fetcher := fo; state := st'; buffer := buf; position := pos;
             nextPageState := Some t; err := e1; initialized := true |}
     = (false, {| fetcher := fo; state := CursorStateActive; buffer := buf;
                  position := pos; nextPageState := Some t; err := Some e;
                  initialized := true |}, [Some t])).
  { intros st' e1 Hst'. unfold Next.
    destruct Hst' as [->| ->]; simpl; unfold Next_active; simpl;
      rewrite Hge; simpl; rewrite Ht'; unfold fetchPageLocked, call_fetcher; simpl;
      rewrite Hf; reflexivity. }
  rewrite (Hn st e0 Hs). repeat split; try done.
  - unfold HasNextPage. simpl. by rewrite Ht'.
  - rewrite (Hn CursorStateActive (Some e)); [done|by right].
Qed.

(** A fetched page with no documents ends iteration by Next even when
    it carries a further page state: Next returns false, the cursor is
    Exhausted while [HasNextPage] is still true, and later Next calls
    return false without fetching. [All] on the same cursor goes on to
    fetch that further page. *)
Theorem Next_empty_page_ends (c : Cursor) (t t' : string)
    (Hs : state c = CursorStateIdle \/ state c = CursorStateActive)
    (Hi : initialized c = true)
    (Hp : Z.of_nat (length (buffer c)) <= position c + 1)
    (Ht : nextPageState c = Some t) (Hne : t <> EmptyString) (Hne' : t' <> EmptyString)
    (Hf : call_fetcher c (Some t) = ([], Some t', None)) :
  let '(b, c', log) := Next c in
  b = false /\ log = [Some t] /\ state c' = CursorStateExhausted /\
  HasNextPage c' = true /\ Next c' = (false, c', []) /\
  (forall fuel u, exists rest, (All (S (S fuel)) u c).2 = Some t :: Some t' :: rest).
Proof.
  destruct c as [fo st buf pos nps e0 ini]; simpl in *. subst ini nps.
  assert (Hge : (pos + 1 <? Z.of_nat (length buf)) = false) by (apply Z.ltb_ge; lia).
  assert (Ht1 : String.eqb t EmptyString = false) by (by apply String.eqb_neq).
  assert (Ht2 : String.eqb t' EmptyString = false) by (by apply String.eqb_neq).
  unfold call_fetcher in Hf. simpl in Hf.
  assert (Hn : Next {| fetcher := fo; state := st; buffer := buf; position := pos;
                       nextPageState := Some t; err := e0; initialized := true |}
               = (false, {| fetcher := fo; state := CursorStateExhausted; buffer := [];
                            position := -1; nextPageState := Some t'; err := e0;
                            initialized := true |}, [Some t])).
  { unfold Next.
    destruct Hs as [->| ->]; simpl; unfold Next_active; simpl;
      rewrite Hge; simpl; rewrite Ht1; unfold fetchPageLocked, call_fetcher; simpl;
      rewrite Hf; reflexivity. }
  rewrite Hn. split; [done|]. split; [done|]. split; [done|]. split.
  - unfold HasNextPage. simpl. by rewrite Ht2.
  - split; [reflexivity|]. intros fuel u.
    assert (Hcl : CursorState_eqb st CursorStateClosed = false)
      by (destruct Hs as [-> | ->]; reflexivity).
    unfold All. simpl. rewrite Hcl. simpl.
    set (rest0 := if pos <? 0 then buf else if pos + 1 <? Z.of_nat (length buf)
                  then drop (Z.to_nat (pos + 1)) buf else []).
    cbn [All_pages nextPageState page_state_empty]. rewrite Ht1.
    unfold fetchPageLocked at 1, call_fetcher at 1. simpl. rewrite Hf.
    cbn [All_pages nextPageState page_state_empty]. rewrite Ht2.
    destruct (fetchPageLocked _ (Some t')) as [c2|e2].
    + match goal with |- context [All_pages fuel c2 ?d ?l] =>
        destruct (All_pages_log fuel c2 d l) as [rest Hr];
        destruct (All_pages fuel c2 d l) as [[[ds|e3] c3] l3] end;
      simpl in Hr |- *; subst l3; by exists rest.
    + simpl. by exists [].
Qed.


(** Closing a cursor that is not Closed empties it. Current returns nil,
    [HasNextPage] is false and [RemainingBatchLength] is 0, while [Err]
    keeps the error recorded before. *)
Theorem Close_empties (c : Cursor) (Hs : state c <> CursorStateClosed) :
  let c' := (Close c).2 in
  Current c' = None /\ HasNextPage c' = false /\ RemainingBatchLength c' = 0 /\
  Err c' = Err c.
Proof.
  assert (Hcl : CursorState_eqb (state c) CursorStateClosed = false)
    by (destruct (state c); done).
  unfold Close. rewrite Hcl. simpl.
  split; [|split; [done|split; [|done]]].
  - unfold Current. simpl. destruct (position c <? 0); simpl; [done|].
    by destruct (position c).
  - unfold RemainingBatchLength. cbn [buffer length position]. change (Z.of_nat 0) with 0.
    destruct (position c <? 0) eqn:Hp; [done|].
    apply Z.ltb_ge in Hp.
    replace (0 - position c - 1 <? 0) with true by (symmetry; apply Z.ltb_lt; lia).
    done.
Qed.

(** With no further page, [All] calls no fetcher. It hands the documents
    after the current position to the final unmarshal and leaves the
    cursor Exhausted, after which Next returns false without fetching. *)
Theorem All_no_pending_page (fuel : nat) (u : list RawMessage -> option error)
    (c : Cursor) (Hs : state c <> CursorStateClosed) (Hi : initialized c = true)
    (He : page_state_empty (nextPageState c) = true) (Hr : position_in_range c) :
  let '(r, c', log) := All fuel u c in
  r = u (drop (Z.to_nat (position c + 1)) (buffer c)) /\ log = [] /\
  state c' = CursorStateExhausted /\ Next c' = (false, c', []).
Proof.
  assert (Hcl : CursorState_eqb (state c) CursorStateClosed = false)
    by (destruct (state c); done).
  unfold All. rewrite Hcl, Hi. simpl.
  assert (Hpg : forall docs, All_pages fuel c docs [] = (inl docs, c, [])).
  { intros docs. destruct fuel; simpl; by rewrite He. }
  rewrite Hpg. simpl. split; [|done].
  f_equal. unfold position_in_range in Hr.
  destruct (position c <? 0) eqn:Hp.
  - apply Z.ltb_lt in Hp. by replace (position c + 1) with 0 by lia.
  - apply Z.ltb_ge in Hp.
    destruct (position c + 1 <? Z.of_nat (length (buffer c))) eqn:Hl; [done|].
    apply Z.ltb_ge in Hl. rewrite drop_ge; [done|]. lia.
Qed.

(** [Iterate] either calls [fn] on every document Next yields, [fn]
    returning nil each time, and then returns [Err()]. The documents and
    fetches are then those of the plain [for c.Next() { c.Current() }]
    loop. Or it stops at the first document on which [fn] fails: an
    [io.EOF] gives nil, even if the cursor holds an error, and any other
    error is returned as is. *)
Theorem Iterate_outcome (fuel : nat) (fn : option RawMessage -> FnResult) (c : Cursor)
    r calls c' log (H : Iterate fuel fn c = Some (r, calls, c', log)) :
  (Forall (fun d => fn d = FnNil) calls /\ r = Err c' /\ drain fuel c = (calls, c', log)) \/
  (exists ds d, calls = ds ++ [d] /\ Forall (fun d => fn d = FnNil) ds /\
     ((fn d = FnEOF /\ r = None) \/ (exists e, fn d = FnErr e /\ r = Some e))).
Proof.
  revert c r calls c' log H. induction fuel as [|fuel IH]; intros c r calls c' log H;
    simpl in H; [discriminate|].
  simpl. destruct (Next c) as [[b c1] l1]. destruct b.
  - destruct (fn (Current c1)) as [| |e] eqn:Hfn.
    + destruct (Iterate fuel fn c1) as [[[[r2 calls2] c2] l2]|] eqn:Hit; [|discriminate].
      injection H as <- <- <- <-.
      destruct (IH c1 r2 calls2 c2 l2 Hit) as [(Hall & Hr & Hd)|(ds & d & -> & Hds & Hd)].
      * left. rewrite Hd. split; [by constructor|done].
      * right. exists (Current c1 :: ds), d.
        split; [reflexivity|]. split; [by constructor|exact Hd].
    + injection H as <- <- <- <-. right. exists [], (Current c1).
      split; [reflexivity|]. split; [constructor|by left].
    + injection H as <- <- <- <-. right. exists [], (Current c1).
      split; [reflexivity|]. split; [constructor|]. right. by exists e.
  - injection H as <- <- <- <-. left. split; [constructor|done].
Qed.

End CursorExtras.

Module CursorExtrasWitnesses.
Import Cursor CursorExt CursorTestData CursorExtras.

Lemma Err_never_cleared_witness :
  is_Some (Err (set_err (New three_page_fetcher) (ErrOther "boom"))) /\
  is_Some (Err (run [OpNext; OpNext; OpClose]
                    (set_err (New three_page_fetcher) (ErrOther "boom"))).1.2).
Proof.
  split; [exists (ErrOther "boom"); reflexivity|].
  apply (Err_never_cleared [OpNext; OpNext; OpClose]
           (set_err (New three_page_fetcher) (ErrOther "boom"))).
  exists (ErrOther "boom"); reflexivity.
Defined.

Lemma Next_within_buffer_witness :
  let c := NewWithInitialData ["a"; "b"]%string None three_page_fetcher in
  (state c = CursorStateIdle \/ state c = CursorStateActive) /\
  initialized c = true /\
  (-1 <= position c /\ position c + 1 < Z.of_nat (length (buffer c))) /\
  let '(b, c', log) := Next c in
  b = true /\ log = [] /\ state c' = CursorStateActive /\
  position c' = position c + 1 /\ buffer c' = buffer c /\
  RemainingBatchLength c' = RemainingBatchLength c - 1 /\
  Current c' = nth_error (buffer c) (Z.to_nat (position c + 1)).
Proof.
  intros c.
  assert (Hs : state c = CursorStateIdle \/ state c = CursorStateActive)
    by (left; reflexivity).
  assert (Hi : initialized c = true) by reflexivity.
  assert (Hp : -1 <= position c /\ position c + 1 < Z.of_nat (length (buffer c)))
    by (simpl; lia).
  split; [exact Hs|]. split; [exact Hi|]. split; [exact Hp|].
  exact (Next_within_buffer c Hs Hi Hp).
Defined.

Lemma Next_first_page_error_witness :
  let f : PageFetcher := fun _ => ([], None, Some (ErrOther "unavailable")) in
  f None = ([], None, Some (ErrOther "unavailable")) /\
  let '(b, c', log) := Next (New f) in
  b = false /\ log = [None] /\ Err c' = Some (ErrOther "unavailable") /\
  initialized c' = false /\ state c' = CursorStateIdle /\ (Next c').2 = [None].
Proof.
  intros f. split; [reflexivity|].
  exact (Next_first_page_error f (ErrOther "unavailable") [] None eq_refl).
Defined.

Lemma Next_page_error_keeps_page_witness :
  let c := on_last_buffered failing_second_page in
  (state c = CursorStateIdle \/ state c = CursorStateActive) /\
  initialized c = true /\ Z.of_nat (length (buffer c)) <= position c + 1 /\
  nextPageState c = Some "T1"%string /\ "T1"%string <> EmptyString /\
  call_fetcher c (Some "T1"%string) = ([], None, Some (ErrOther "unavailable")) /\
  let '(b, c', log) := Next c in
  b = false /\ log = [Some "T1"%string] /\ Err c' = Some (ErrOther "unavailable") /\
  state c' = CursorStateActive /\ buffer c' = buffer c /\ position c' = position c /\
  nextPageState c' = Some "T1"%string /\ HasNextPage c' = true /\
  (Next c').2 = [Some "T1"%string].
Proof.
  intros c.
  assert (Hs : state c = CursorStateIdle \/ state c = CursorStateActive)
    by (right; reflexivity).
  assert (Hi : initialized c = true) by reflexivity.
  assert (Hp : Z.of_nat (length (buffer c)) <= position c + 1) by (simpl; lia).
  assert (Ht : nextPageState c = Some "T1"%string) by reflexivity.
  assert (Hne : "T1"%string <> EmptyString) by discriminate.
  assert (Hf : call_fetcher c (Some "T1"%string) = ([], None, Some (ErrOther "unavailable")))
    by reflexivity.
  do 5 (split; [assumption|]). split; [exact Hf|].
  exact (Next_page_error_keeps_page c "T1" (ErrOther "unavailable") [] None
           Hs Hi Hp Ht Hne Hf).
Defined.

Lemma Next_empty_page_ends_witness :
  let c := on_last_buffered empty_second_page in
  (state c = CursorStateIdle \/ state c = CursorStateActive) /\
  initialized c = true /\ Z.of_nat (length (buffer c)) <= position c + 1 /\
  nextPageState c = Some "T1"%string /\ "T1"%string <> EmptyString /\
  "T2"%string <> EmptyString /\
  call_fetcher c (Some "T1"%string) = ([], Some "T2"%string, None) /\
  let '(b, c', log) := Next c in
  b = false /\ log = [Some "T1"%string] /\ state c' = CursorStateExhausted /\
  HasNextPage c' = true /\ Next c' = (false, c', []) /\
  (forall fuel u, exists rest,
     (All (S (S fuel)) u c).2 = Some "T1"%string :: Some "T2"%string :: rest).
Proof.
  intros c.
  assert (Hs : state c = CursorStateIdle \/ state c = CursorStateActive)
    by (right; reflexivity).
  assert (Hi : initialized c = true) by reflexivity.
  assert (Hp : Z.of_nat (length (buffer c)) <= position c + 1) by (simpl; lia).
  assert (Ht : nextPageState c = Some "T1"%string) by reflexivity.
  assert (Hne : "T1"%string <> EmptyString) by discriminate.
  assert (Hne' : "T2"%string <> EmptyString) by discriminate.
  assert (Hf : call_fetcher c (Some "T1"%string) = ([], Some "T2"%string, None))
    by reflexivity.
  do 6 (split; [assumption|]). split; [exact Hf|].
  exact (Next_empty_page_ends c "T1" "T2" Hs Hi Hp Ht Hne Hne' Hf).
Defined.


Lemma Close_empties_witness :
  let c := on_last_buffered failing_second_page in
  state c <> CursorStateClosed /\
  let c' := (Close c).2 in
  Current c' = None /\ HasNextPage c' = false /\ RemainingBatchLength c' = 0 /\
  Err c' = Err c.
Proof.
  intros c. assert (Hs : state c <> CursorStateClosed) by discriminate.
  split; [exact Hs|]. exact (Close_empties c Hs).
Defined.

Lemma All_no_pending_page_witness :
  let c := NewWithInitialData ["a"; "b"]%string None three_page_fetcher in
  let u : list RawMessage -> option error := fun _ => None in
  state c <> CursorStateClosed /\ initialized c = true /\
  page_state_empty (nextPageState c) = true /\ position_in_range c /\
  let '(r, c', log) := All 3 u c in
  r = u (drop (Z.to_nat (position c + 1)) (buffer c)) /\ log = [] /\
  state c' = CursorStateExhausted /\ Next c' = (false, c', []).
Proof.
  intros c u.
  assert (Hs : state c <> CursorStateClosed) by discriminate.
  assert (Hi : initialized c = true) by reflexivity.
  assert (He : page_state_empty (nextPageState c) = true) by reflexivity.
  assert (Hr : position_in_range c) by (unfold position_in_range; simpl; lia).
  do 4 (split; [assumption|]).
  exact (All_no_pending_page 3 u c Hs Hi He Hr).
Defined.

Lemma Iterate_outcome_witness :
  let c := New three_page_fetcher in
  let c1 := {| fetcher := Some three_page_fetcher; state := CursorStateActive;
               buffer := ["b1"; "b2"]%string; position := 0;
               nextPageState := Some "T2"%string; err := None; initialized := true |} in
  let calls := [Some "a1"; Some "a2"; Some "b1"]%string in
  let log := [None; Some "T1"%string] in
  Iterate 6 stop_at_b1 c = Some (None, calls, c1, log) /\
  ((Forall (fun d => stop_at_b1 d = FnNil) calls /\ None = Err c1 /\
    drain 6 c = (calls, c1, log)) \/
   (exists ds d, calls = ds ++ [d] /\ Forall (fun d => stop_at_b1 d = FnNil) ds /\
      ((stop_at_b1 d = FnEOF /\ @None error = None) \/
       (exists e, stop_at_b1 d = FnErr e /\ None = Some e)))).
Proof.
  intros c c1 calls log.
  assert (H : Iterate 6 stop_at_b1 c = Some (None, calls, c1, log)) by reflexivity.
  split; [exact H|].
  exact (Iterate_outcome 6 stop_at_b1 c None calls c1 log H).
Defined.

End CursorExtrasWitnesses.

(* ================================================================== *)
(** ** Proofs about the result types *)
(* ================================================================== *)

Module ResultsExtras.
Import Json Results.

(** [Count] passes the result's own error through with count 0, and an
    empty response gives count 0 with [ErrNoDocuments]; in neither case
    is the upper bound consulted. *)
Theorem Count_error_paths (json_parse : string -> option json) (e : error)
    (raw : string) (upperBound : Z) :
  Count_ json_parse {| cr_err := Some e; cr_rawResp := raw |} upperBound = (0, Some e) /\
  Count_ json_parse {| cr_err := None; cr_rawResp := EmptyString |} upperBound
    = (0, Some ErrNoDocuments).
Proof.
  split; [reflexivity|]. cbn.
  destruct (0 <? upperBound) eqn:H1; [|reflexivity].
  apply Z.ltb_lt in H1.
  replace (upperBound <? 0) with false by (symmetry; apply Z.ltb_ge; lia).
  reflexivity.
Qed.

(** When [Count] returns a nil error, the result had no error of its own,
    the response decoded without any error, [moreData] was false, the
    count returned is the decoded one, and a positive upper bound is
    respected. *)
Theorem Count_nil_error (json_parse : string -> option json) (mr : CountResult)
    (upperBound n : Z) (H : Count_ json_parse mr upperBound = (n, None)) :
  cr_err mr = None /\
  exists resp,
    CountResult_Decode json_parse mr zero_CountResultJSON = (resp, None) /\
    MoreData resp = false /\ Count resp = n /\ (0 < upperBound -> n <= upperBound).
Proof.
  unfold Count_ in H. destruct (cr_err mr) as [e|] eqn:He; [discriminate|].
  split; [done|].
  destruct (CountResult_Decode json_parse mr zero_CountResultJSON) as [resp err] eqn:Hd.
  destruct (MoreData resp || ((0 <? upperBound) && (upperBound <? Count resp))) eqn:Hc;
    [discriminate|].
  injection H as Hn Herr. subst. exists resp.
  apply orb_false_iff in Hc as [Hm Hb]. split; [done|]. split; [done|]. split; [done|].
  intros Hub. apply andb_false_iff in Hb as [Hb|Hb].
  - apply Z.ltb_ge in Hb. lia.
  - by apply Z.ltb_ge in Hb.
Qed.

(** For a response [{"status":{"count":n,"moreData":b}}] with [n] an
    [int]: [Count] returns [n] with [ErrTooManyDocumentsToCount] when
    [moreData] is true or a positive upper bound is below [n], and [n]
    with no error otherwise. *)
Theorem Count_of_status (json_parse : string -> option json) (mr : CountResult)
    (upperBound n : Z) (b : bool)
    (Herr : cr_err mr = None) (Hraw : cr_rawResp mr <> EmptyString)
    (Hn : int_min <= n <= int_max)
    (Hp : json_parse (cr_rawResp mr)
          = Some (JObject [("status"%string,
                            JObject [("count"%string, JNumber n);
                                     ("moreData"%string, JBool b)])])) :
  Count_ json_parse mr upperBound
  = if b || ((0 <? upperBound) && (upperBound <? n))
    then (n, Some ErrTooManyDocumentsToCount) else (n, None).
Proof.
  unfold Count_, CountResult_Decode. rewrite Herr.
  assert (Hl : (String.length (cr_rawResp mr) =? 0)%nat = false).
  { destruct (cr_rawResp mr); [done|reflexivity]. }
  rewrite Hl. unfold unmarshal_e. rewrite Hp.
  assert (Hr : (int_min <=? n) && (n <=? int_max) = true).
  { apply andb_true_iff. split; apply Z.leb_le; lia. }
  unfold decode_CountResultJSON, decode_struct. cbn [fold_left fst snd].
  change (key_matches "status" "status") with true. cbn iota beta.
  unfold decode_status_member.
  change (key_matches "count" "count") with true.
  change (key_matches "count" "moreData") with false.
  change (key_matches "moreData" "moreData") with true.
  cbn iota beta. unfold decode_int. rewrite Hr. reflexivity.
Qed.

(** [SingleResult.Decode] returns a nil error only when the result had
    no error of its own, the response decoded without error to a
    document that is not [null], and that document decoded into [v]
    without error. *)
Theorem SingleResult_nil_error {A} (json_parse : string -> option json)
    (decode : A -> json -> A * option error) (sr : SingleResult) (cur v : A)
    (H : SingleResult_Decode json_parse decode sr cur = (v, None)) :
  sr_err sr = None /\
  exists d, unmarshal_e json_parse decode_singleResultJSON None (sr_rawResp sr)
            = (Some d, None) /\ d <> JNull /\ decode cur d = (v, None).
Proof.
  unfold SingleResult_Decode in H. destruct (sr_err sr); [discriminate|].
  split; [done|].
  destruct (String.length (sr_rawResp sr) =? 0)%nat; [discriminate|].
  destruct (unmarshal_e json_parse decode_singleResultJSON None (sr_rawResp sr))
    as [[d|] [e|]]; try discriminate; [by destruct d|].
  exists d. split; [done|]. destruct d; try discriminate; by split.
Qed.

(** For a response [{"data":{"document":d}}], [SingleResult.Decode]
    returns [ErrNoDocuments] and leaves [v] as it was when [d] is
    [null]. Otherwise it decodes [d] into [v]. *)
Theorem SingleResult_document {A} (json_parse : string -> option json)
    (decode : A -> json -> A * option error) (sr : SingleResult) (cur : A) (d : json)
    (Herr : sr_err sr = None) (Hraw : sr_rawResp sr <> EmptyString)
    (Hp : json_parse (sr_rawResp sr)
          = Some (JObject [("data"%string, JObject [("document"%string, d)])])) :
  SingleResult_Decode json_parse decode sr cur
  = match d with JNull => (cur, Some ErrNoDocuments) | _ => decode cur d end.
Proof.
  unfold SingleResult_Decode. rewrite Herr.
  assert (Hl : (String.length (sr_rawResp sr) =? 0)%nat = false).
  { destruct (sr_rawResp sr); [done|reflexivity]. }
  rewrite Hl. unfold unmarshal_e. rewrite Hp. cbn. destruct d; reflexivity.
Qed.

Lemma decode_struct_no_match {B} (member : B -> string -> json -> B * option error)
    (field : string) fs b
    (Hm : forall b k v, key_matches field k = false -> member b k v = (b, None))
    (Hfs : Forall (fun kv => key_matches field kv.1 = false) fs) :
  decode_struct member b (JObject fs) = (b, None).
Proof.
  simpl. assert (Hgen : forall e, fold_left (fun acc kv => let '(a, e) := acc in
                               let '(a', e') := member a kv.1 kv.2 in
                               (a', first_err e e')) fs (b, e) = (b, e)).
  { induction Hfs as [|[k v] fs Hk Hfs IH]; intros e; simpl; [done|].
    simpl in Hk. rewrite (Hm b k v Hk). destruct e; apply IH. }
  apply Hgen.
Qed.

(** A response object without a [data] member leaves the document nil. [SingleResult.Decode] then
    fails with the syntax error of an empty input, not with
    [ErrNoDocuments]. *)
Theorem SingleResult_missing_document {A} (json_parse : string -> option json)
    (decode : A -> json -> A * option error) (sr : SingleResult) (cur : A)
    (fs : list (string * json))
    (Herr : sr_err sr = None) (Hraw : sr_rawResp sr <> EmptyString)
    (Hp : json_parse (sr_rawResp sr) = Some (JObject fs))
    (Hfs : Forall (fun kv => key_matches "data" kv.1 = false) fs) :
  SingleResult_Decode json_parse decode sr cur = (cur, Some ErrSyntax).
Proof.
  unfold SingleResult_Decode. rewrite Herr.
  assert (Hl : (String.length (sr_rawResp sr) =? 0)%nat = false).
  { destruct (sr_rawResp sr); [done|reflexivity]. }
  rewrite Hl. unfold unmarshal_e. rewrite Hp. unfold decode_singleResultJSON.
  rewrite (decode_struct_no_match _ "data" fs None); [reflexivity| |exact Hfs].
  intros b k v Hk. by rewrite Hk.
Qed.

End ResultsExtras.

(** Evaluates the key comparisons of JSON decoding on literal keys. *)
Ltac eval_keys :=
  repeat match goal with
  | |- context [Json.key_matches ?a ?b] =>
      let v := eval vm_compute in (Json.key_matches a b) in
      lazymatch v with
      | true => change (Json.key_matches a b) with true
      | false => change (Json.key_matches a b) with false
      end
  end.

Module WarningsExtras.
Import Command Warnings.

(** A warning renders exactly as the Data API error with the same code,
    family, scope and message, except that an empty message renders as
    "unknown warning" instead of "unknown data api error". A nil warning
    renders as "<nil> Warning". *)
Theorem Warning_String_as_error (w : Warning) :
  Warning_String (Some w) = DataAPIError_Error (warning_as_error w) /\
  Warning_String None = "<nil> Warning"%string.
Proof.
  split; [|reflexivity].
  unfold Warning_String, DataAPIError_Error, warning_as_error. simpl.
  destruct (String.eqb (W_Message w) EmptyString) eqn:He; simpl.
  - reflexivity.
  - rewrite He. reflexivity.
Qed.

End WarningsExtras.

Module AdminFacts.
Import Json Results Admin.

Lemma last_write_acc (f : setter -> option string) ss acc :
  fold_left (fun acc s => match f s with Some v => Some v | None => acc end) ss acc
  = match last_write f ss with Some v => Some v | None => acc end.
Proof.
  unfold last_write. revert acc.
  induction ss as [|s ss IH]; intros acc; simpl; [reflexivity|].
  rewrite (IH (match f s with Some v => Some v | None => acc end)).
  rewrite (IH (match f s with Some v => Some v | None => None end)).
  destruct (fold_left _ ss None); [reflexivity|]. by destruct (f s).
Qed.

Lemma last_write_app f a b :
  last_write f (a ++ b)
  = match last_write f b with Some v => Some v | None => last_write f a end.
Proof. unfold last_write at 1. rewrite fold_left_app. apply last_write_acc. Qed.

Lemma last_write_cons f s ss :
  last_write f (s :: ss) = match last_write f ss with Some v => Some v | None => f s end.
Proof.
  change (s :: ss) with ([s] ++ ss). rewrite last_write_app. unfold last_write at 2. simpl.
  by destruct (f s).
Qed.

Lemma setters_fields ss r :
  let r' := fold_left (fun r s => apply_setter s r) ss r in
  RegionType r' = match last_write setter_region ss with Some v => Some v | None => RegionType r end /\
  FilterByOrg r' = match last_write setter_org ss with Some v => Some v | None => FilterByOrg r end.
Proof.
  revert r. induction ss as [|s ss IH]; intros r; simpl; [done|].
  destruct (IH (apply_setter s r)) as [H1 H2]. rewrite H1, H2, !last_write_cons.
  destruct (last_write setter_region ss), (last_write setter_org ss);
    destruct s as [v|v|[[rt|] [fo|]]]; split; reflexivity.
Qed.

Lemma string_slice_errors es e0 :
  fold_left (fun e x => first_err e (decode_string_e EmptyString x).2) es e0
  = match e0 with
    | Some _ => e0
    | None => if forallb string_or_null es then None else Some ErrUnmarshalType
    end.
Proof.
  revert e0. induction es as [|x es IH]; intros e0; simpl.
  - by destruct e0.
  - rewrite IH. destruct e0; [reflexivity|].
    destruct x; reflexivity.
Qed.

End AdminFacts.

Module AdminExtras.
Import Json Results Admin AdminFacts.

(** [MergeOptions] skips nil listers and runs the setters of the others
    in order, and [Validate] never fails. Each field ends up with the
    value of the last setter that writes it. A struct passed as a lister
    writes only its non-nil fields, so it never clears a value set
    earlier. The query of [FindAvailableRegions] then holds
    [filter-by-org] and [region-type], in that key order, for the fields
    whose final value is non-empty: a later [SetRegionType("")] removes
    an earlier region type. *)
Theorem MergeOptions_last_write (opts : list (option (list setter))) :
  let m := MergeOptions opts in
  m.2 = None /\
  RegionType m.1 = last_write setter_region (all_setters opts) /\
  FilterByOrg m.1 = last_write setter_org (all_setters opts) /\
  region_query m.1
  = match last_write setter_org (all_setters opts) with
    | Some v => if String.eqb v EmptyString then [] else [("filter-by-org"%string, v)]
    | None => []
    end ++
    match last_write setter_region (all_setters opts) with
    | Some v => if String.eqb v EmptyString then [] else [("region-type"%string, v)]
    | None => []
    end.
Proof.
  assert (Hgen : forall r,
    let r' := fold_left (fun r opt =>
                  match opt with
                  | None => r
                  | Some setters => fold_left (fun r s => apply_setter s r) setters r
                  end) opts r in
    RegionType r' = match last_write setter_region (all_setters opts) with
                    | Some v => Some v | None => RegionType r end /\
    FilterByOrg r' = match last_write setter_org (all_setters opts) with
                     | Some v => Some v | None => FilterByOrg r end).
  { induction opts as [|[ss|] opts IH]; intros r; simpl; [done| |apply IH].
    destruct (IH (fold_left (fun r s => apply_setter s r) ss r)) as [H1 H2].
    destruct (setters_fields ss r) as [H3 H4].
    unfold all_setters. simpl. rewrite !last_write_app.
    unfold all_setters in H1, H2. rewrite H1, H2, H3, H4.
    split; [destruct (last_write setter_region (concat _))|destruct (last_write setter_org (concat _))];
      reflexivity. }
  intros m. unfold m, MergeOptions, Validate, region_query. cbn [fst snd].
  destruct (Hgen {| RegionType := None; FilterByOrg := None |}) as [H1 H2].
  cbn [RegionType FilterByOrg] in H1, H2. cbv zeta in *. rewrite H1, H2.
  destruct (last_write setter_region _), (last_write setter_org _);
    repeat split; reflexivity.
Qed.

(** For an error body [{"message":m,"errors":es}] with a non-empty [m],
    [extractDevOpsError] reports [m] only when every element of [es] is a
    string or null. One ill-typed element makes [json.Unmarshal] fail,
    and the raw body is reported instead. [ExtractErrors] of the Data
    API, which ignores the unmarshal error, reports [m] in every case. *)
Theorem extractDevOpsError_message (json_parse : string -> option json)
    (statusCode : Z) (body m : string) (es : list json)
    (Hs : 400 <= statusCode) (Hm : m <> EmptyString)
    (Hp : json_parse body
          = Some (JObject [("message"%string, JString m); ("errors"%string, JArray es)])) :
  extractDevOpsError json_parse statusCode body
  = (devOps_prefix statusCode ++ (if forallb string_or_null es then m else body))%string /\
  Command.ExtractErrors json_parse statusCode body
  = {| Command.payload := body; Command.err := Some (Command.ErrString m) |}.
Proof.
  split.
  - unfold extractDevOpsError, unmarshal_e. rewrite Hp.
    unfold decode_struct. cbn [fold_left fst snd]. unfold decode_devOpsErr_member.
    eval_keys. cbn iota beta. simpl decode_string_e. cbn iota beta.
    unfold decode_string_slice. rewrite string_slice_errors.
    simpl first_err. destruct (forallb string_or_null es); simpl.
    + replace (String.eqb m EmptyString) with false; [reflexivity|].
      symmetry. by apply String.eqb_neq.
    + reflexivity.
  - unfold Command.ExtractErrors, Command.unmarshal. rewrite Hp.
    replace (400 <=? statusCode) with true by (symmetry; apply Z.leb_le; lia).
    unfold Command.decode_DataAPIError. cbn [fold_left].
    unfold Command.decode_DataAPIError_member. eval_keys. simpl.
    destruct m as [|ch m']; [done|]. reflexivity.
Qed.

End AdminExtras.

Module ResultsAdminWitnesses.
Import Json Results Admin ResultsTestData ResultsExtras AdminExtras.

Lemma Count_nil_error_witness :
  Count_ test_parse count_result 10 = (7, None) /\
  cr_err count_result = None /\
  exists resp,
    CountResult_Decode test_parse count_result zero_CountResultJSON = (resp, None) /\
    MoreData resp = false /\ Count resp = 7 /\ (0 < 10 -> 7 <= 10).
Proof.
  assert (H : Count_ test_parse count_result 10 = (7, None)) by (vm_compute; reflexivity).
  split; [exact H|]. exact (Count_nil_error test_parse count_result 10 7 H).
Defined.

Lemma Count_of_status_witness :
  Count_ test_parse count_result 5 = (7, Some ErrTooManyDocumentsToCount).
Proof.
  refine (Count_of_status test_parse count_result 5 7 false eq_refl _ _ _).
  - discriminate.
  - unfold int_min, int_max. lia.
  - vm_compute. reflexivity.
Defined.

Lemma SingleResult_nil_error_witness :
  SingleResult_Decode test_parse decode_string_ptr doc_result None = (Some "x"%string, None) /\
  sr_err doc_result = None /\
  exists d, unmarshal_e test_parse decode_singleResultJSON None (sr_rawResp doc_result)
            = (Some d, None) /\ d <> JNull /\ decode_string_ptr None d = (Some "x"%string, None).
Proof.
  assert (H : SingleResult_Decode test_parse decode_string_ptr doc_result None
              = (Some "x"%string, None)) by (vm_compute; reflexivity).
  split; [exact H|]. exact (SingleResult_nil_error test_parse decode_string_ptr doc_result None _ H).
Defined.

Lemma SingleResult_document_witness :
  SingleResult_Decode test_parse decode_string_ptr doc_result None = (Some "x"%string, None).
Proof.
  refine (SingleResult_document test_parse decode_string_ptr doc_result None (JString "x")
            eq_refl _ _).
  - discriminate.
  - vm_compute. reflexivity.
Defined.

Lemma SingleResult_missing_document_witness :
  SingleResult_Decode test_parse decode_string_ptr count_as_single (Some "y"%string)
  = (Some "y"%string, Some ErrSyntax).
Proof.
  refine (SingleResult_missing_document test_parse decode_string_ptr count_as_single
            (Some "y"%string)
            [("status"%string,
              JObject [("count"%string, JNumber 7); ("moreData"%string, JBool false)])]
            eq_refl _ _ _).
  - discriminate.
  - vm_compute. reflexivity.
  - constructor; [vm_compute; reflexivity|constructor].
Defined.

Lemma extractDevOpsError_message_witness :
  extractDevOpsError test_parse 400 "devops-body"
  = (devOps_prefix 400 ++ "devops-body")%string /\
  Command.ExtractErrors test_parse 400 "devops-body"
  = {| Command.payload := "devops-body"; Command.err := Some (Command.ErrString "bad region") |}.
Proof.
  exact (extractDevOpsError_message test_parse 400 "devops-body" "bad region"
           [JString "x"; JNumber 5] ltac:(lia) ltac:(discriminate)
           ltac:(vm_compute; reflexivity)).
Defined.

End ResultsAdminWitnesses.

Module PrimaryKeyFacts.
Import Json Results Admin PrimaryKeys.

Lemma decode_string_elems_strings (l : list string) old :
  decode_string_elems old (map JString l) = (l, None).
Proof.
  revert old. induction l as [|s l IH]; intros old; simpl; [reflexivity|].
  rewrite IH. reflexivity.
Qed.

Lemma int_map_fold (l : list (string * Z)) (m0 : gmap string Z) :
  Forall (fun kv => int_min <= kv.2 <= int_max) l ->
  fold_left (fun acc kv =>
               let '(m, e) := acc in
               let '(n, e') := decode_int 0 kv.2 in
               (<[kv.1 := n]> m, first_err e e'))
            (map (fun kv => (kv.1, JNumber kv.2)) l) (m0, None)
  = (fold_left (fun m kv => <[kv.1 := kv.2]> m) l m0, None).
Proof.
  revert m0. induction l as [|[k n] l IH]; intros m0 Hl; simpl; [reflexivity|].
  inversion Hl as [|? ? Hn Hl']; subst. simpl in Hn.
  unfold decode_int.
  replace ((int_min <=? n) && (n <=? int_max)) with true
    by (symmetry; apply andb_true_iff; split; apply Z.leb_le; lia).
  simpl. apply IH. exact Hl'.
Qed.

Lemma fold_insert_map_to_list (m : gmap string Z) :
  fold_left (fun m kv => <[kv.1 := kv.2]> m) (map_to_list m) ∅ = m.
Proof.
  rewrite <- fold_left_rev_right.
  change (fold_right (fun kv m => <[kv.1 := kv.2]> m) ∅ (rev (map_to_list m)))
    with (list_to_map (M := gmap string Z) (rev (map_to_list m))).
  rewrite (list_to_map_proper (rev (map_to_list m)) (map_to_list m)).
  - apply list_to_map_to_list.
  - rewrite map_rev. apply NoDup_ListNoDup, NoDup_rev, NoDup_ListNoDup.
    apply NoDup_fst_map_to_list.
  - symmetry. apply Permutation_rev.
Qed.

Lemma decode_pk_object (p : PrimaryKey)
    (Hint : map_Forall (fun _ n => int_min <= n <= int_max) (default ∅ (PartitionSort p))) :
  decode_struct decode_pk_member zero_PrimaryKey (pk_object p)
  = ({| PartitionBy := PartitionBy p;
        PartitionSort := if (map_len (PartitionSort p) =? 0)%nat then None
                         else PartitionSort p |}, None).
Proof.
  destruct p as [pb ps]. unfold pk_object, decode_struct. cbn [PartitionBy PartitionSort].
  cbn [fold_left fst snd]. unfold decode_pk_member at 2. eval_keys. cbn iota beta.
  assert (Hpb : decode_string_slice_ptr (PartitionBy zero_PrimaryKey)
                  match pb with None => JNull | Some l => JArray (map JString l) end
                = (pb, None)).
  { destruct pb as [l|]; [|reflexivity]. simpl. rewrite decode_string_elems_strings.
    reflexivity. }
  rewrite Hpb. cbn [first_err].
  destruct ps as [m|]; cbn [map_len default] in *; [|reflexivity].
  destruct (size m =? 0)%nat eqn:Hs; [reflexivity|].
  cbn [fold_left fst snd]. unfold decode_pk_member. eval_keys. cbn iota beta.
  unfold decode_int_map. cbn [PartitionSort default].
  rewrite int_map_fold.
  - rewrite fold_insert_map_to_list. reflexivity.
  - apply map_Forall_to_list in Hint. eapply Forall_impl; [exact Hint|].
    intros [k n]. simpl. tauto.
Qed.

End PrimaryKeyFacts.

Module PrimaryKeyExtras.
Import Json Results Admin PrimaryKeys PrimaryKeyFacts.

(** [PrimaryKey.UnmarshalJSON] reads back what [MarshalJSON] writes,
    whatever the key held before: the partition columns are kept (a nil
    slice as nil, an empty one as empty), and the sort map too, except
    that an empty sort map comes back nil. This covers both the plain
    string form of a single column and the object form. *)
Theorem PrimaryKey_round_trip (json_parse : string -> option json) (data : string)
    (p p0 : PrimaryKey)
    (Hint : map_Forall (fun _ n => int_min <= n <= int_max) (default ∅ (PartitionSort p)))
    (Hp : json_parse data = Some (PK_MarshalJSON p)) :
  PK_UnmarshalJSON json_parse data p0
  = ({| PartitionBy := PartitionBy p;
        PartitionSort := if (map_len (PartitionSort p) =? 0)%nat then None
                         else PartitionSort p |}, None).
Proof.
  unfold PK_UnmarshalJSON, unmarshal_e. rewrite Hp. unfold PK_MarshalJSON.
  destruct ((slice_len (PartitionBy p) =? 1)%nat && (map_len (PartitionSort p) =? 0)%nat)
    eqn:Hc.
  - apply andb_true_iff in Hc as [H1 H2]. rewrite H2. simpl.
    destruct (PartitionBy p) as [[|c [|c' l]]|]; try discriminate H1. reflexivity.
  - assert (Ho : exists fs, pk_object p = JObject fs) by (eexists; reflexivity).
    destruct Ho as [fs Ho]. rewrite Ho. simpl decode_string_e. cbv iota.
    rewrite <- Ho, decode_pk_object by exact Hint. reflexivity.
Qed.

(** [PrimaryKey.UnmarshalJSON] on [null] succeeds and yields a key with
    one partition column named "": the first attempt, into a [string],
    accepts [null] and leaves the string empty. *)
Theorem PrimaryKey_Unmarshal_null (json_parse : string -> option json) (data : string)
    (p0 : PrimaryKey) (Hp : json_parse data = Some JNull) :
  PK_UnmarshalJSON json_parse data p0
  = ({| PartitionBy := Some [EmptyString]; PartitionSort := None |}, None).
Proof. unfold PK_UnmarshalJSON, unmarshal_e. rewrite Hp. reflexivity. Qed.

(** A failing [PrimaryKey.UnmarshalJSON] leaves the key untouched, and
    a non-object, non-string value (a number, a boolean or an array)
    always fails with a type error. *)
Theorem PrimaryKey_Unmarshal_error (json_parse : string -> option json) (data : string)
    (p0 : PrimaryKey) :
  (forall e, (PK_UnmarshalJSON json_parse data p0).2 = Some e ->
             (PK_UnmarshalJSON json_parse data p0).1 = p0) /\
  match json_parse data with
  | Some (JNumber _) | Some (JBool _) | Some (JArray _) =>
      PK_UnmarshalJSON json_parse data p0 = (p0, Some ErrUnmarshalType)
  | _ => True
  end.
Proof.
  unfold PK_UnmarshalJSON, unmarshal_e.
  destruct (json_parse data) as [v|]; [|split; [reflexivity|exact I]].
  split.
  - intros e. destruct (decode_string_e EmptyString v) as [s [e1|]]; [|discriminate].
    destruct (decode_struct decode_pk_member zero_PrimaryKey v) as [pk [e2|]];
      [reflexivity|discriminate].
  - destruct v; reflexivity.
Qed.

End PrimaryKeyExtras.

Module MultipleResultExtras.
Import Json Results MultipleResults.

Lemma MultipleResult_page_decode (d ps : json) :
  decode_multipleResultJSON zero_multipleResultJSON
    (JObject [("data"%string, JObject [("documents"%string, d); ("nextPageState"%string, ps)])])
  = ({| mr_Documents := Some d;
        mr_NextPageState := match ps with JString t => Some t | _ => None end |},
     match ps with JString _ | JNull => None | _ => Some ErrUnmarshalType end).
Proof.
  unfold decode_multipleResultJSON, decode_struct. cbn [fold_left fst snd].
  eval_keys. cbn iota beta. unfold decode_multipleResult_data_member.
  eval_keys. cbn iota beta. unfold decode_raw, decode_string_ptr.
  destruct ps; reflexivity.
Qed.

(** For a page response [{"data":{"documents":d,"nextPageState":ps}}]:
    when [ps] is a string or null, [Decode] decodes [d] ([null] giving
    [ErrNoDocuments]), and when [ps] has another type, [Decode] fails
    with a type error although [d] is fine. [NextPageState] is [ps] when
    it is a string and nil otherwise, so the type error is swallowed
    there, and [HasNextPage] holds exactly for a non-empty string. *)
Theorem MultipleResult_page {A} (json_parse : string -> option json)
    (decode : A -> json -> A * option error) (mr : MultipleResult) (cur : A) (d ps : json)
    (Herr : mres_err mr = None) (Hraw : mres_rawResp mr <> EmptyString)
    (Hp : json_parse (mres_rawResp mr)
          = Some (JObject [("data"%string,
                            JObject [("documents"%string, d); ("nextPageState"%string, ps)])])) :
  MultipleResult_Decode json_parse decode mr cur
  = (match ps with
     | JString _ | JNull =>
         match d with JNull => (cur, Some ErrNoDocuments) | _ => decode cur d end
     | _ => (cur, Some ErrUnmarshalType)
     end) /\
  MultipleResult_NextPageState json_parse mr
  = (match ps with JString t => Some t | _ => None end) /\
  MultipleResult_HasNextPage json_parse mr
  = (match ps with JString t => negb (String.eqb t EmptyString) | _ => false end).
Proof.
  assert (Hl : (String.length (mres_rawResp mr) =? 0)%nat = false).
  { destruct (mres_rawResp mr); [done|reflexivity]. }
  unfold MultipleResult_HasNextPage, MultipleResult_NextPageState, MultipleResult_Decode.
  rewrite Herr, Hl. unfold unmarshal_e. rewrite Hp, MultipleResult_page_decode.
  destruct ps; cbn iota beta; cbn [mr_Documents mr_NextPageState];
    repeat split; try reflexivity; destruct d; reflexivity.
Qed.

(** [HasNextPage] holds only when the result has no error of its own and
    its response decodes without any error to a non-empty page state. *)
Theorem MultipleResult_HasNextPage_true (json_parse : string -> option json)
    (mr : MultipleResult) (H : MultipleResult_HasNextPage json_parse mr = true) :
  mres_err mr = None /\
  exists r t,
    unmarshal_e json_parse decode_multipleResultJSON zero_multipleResultJSON (mres_rawResp mr)
    = (r, None) /\ mr_NextPageState r = Some t /\ t <> EmptyString.
Proof.
  unfold MultipleResult_HasNextPage, MultipleResult_NextPageState in H.
  destruct (mres_err mr); [discriminate|]. split; [reflexivity|].
  destruct (String.length (mres_rawResp mr) =? 0)%nat; [discriminate|].
  destruct (unmarshal_e json_parse decode_multipleResultJSON zero_multipleResultJSON
              (mres_rawResp mr)) as [r [e|]]; [discriminate|].
  destruct (mr_NextPageState r) as [t|] eqn:Ht; [|discriminate].
  exists r, t. split; [reflexivity|]. split; [exact Ht|].
  intros ->. discriminate.
Qed.

End MultipleResultExtras.

Module PrimaryKeyMultipleWitnesses.
Import Json Results MultipleResults PrimaryKeys ResultsTestData.
Import PrimaryKeyExtras MultipleResultExtras.

Lemma PrimaryKey_round_trip_witness :
  PK_UnmarshalJSON test_parse "pk-body" zero_PrimaryKey = (compound_key, None).
Proof.
  refine (PrimaryKey_round_trip test_parse "pk-body" compound_key zero_PrimaryKey _ _).
  - apply (bool_decide_unpack _). vm_compute. reflexivity.
  - vm_compute. reflexivity.
Defined.

Lemma PrimaryKey_Unmarshal_null_witness :
  PK_UnmarshalJSON test_parse "null" compound_key
  = ({| PartitionBy := Some [EmptyString]; PartitionSort := None |}, None).
Proof.
  exact (PrimaryKey_Unmarshal_null test_parse "null" compound_key
           ltac:(vm_compute; reflexivity)).
Defined.

Lemma MultipleResult_page_witness :
  MultipleResult_Decode test_parse decode_raw page_result None
  = (None, Some ErrUnmarshalType) /\
  MultipleResult_NextPageState test_parse page_result = None /\
  MultipleResult_HasNextPage test_parse page_result = false.
Proof.
  exact (MultipleResult_page test_parse decode_raw page_result None
           (JArray [JString "a"]) (JNumber 3) eq_refl ltac:(discriminate)
           ltac:(vm_compute; reflexivity)).
Defined.

Lemma MultipleResult_HasNextPage_true_witness :
  MultipleResult_HasNextPage test_parse page2_result = true /\
  mres_err page2_result = None /\
  exists r t,
    unmarshal_e test_parse decode_multipleResultJSON zero_multipleResultJSON
      (mres_rawResp page2_result)
    = (r, None) /\ mr_NextPageState r = Some t /\ t <> EmptyString.
Proof.
  assert (H : MultipleResult_HasNextPage test_parse page2_result = true)
    by (vm_compute; reflexivity).
  split; [exact H|]. exact (MultipleResult_HasNextPage_true test_parse page2_result H).
Defined.

End PrimaryKeyMultipleWitnesses.
